(** * Universal-Collector: the item server (server.js)

    A shallow embedding of the Express handlers of [server.js] (the later of
    the two versions of the file, the one with the category filter and the
    metadata route; the listing route of the earlier version is kept next to
    it), of the JavaScript values they inspect and of the one SQLite table
    they read and write, followed by the properties of the specification
    that have been checked against them. *)

From Stdlib Require Import ZArith List String Ascii Bool Lia.
From Stdlib Require Import Permutation Sorted DecimalString.
From Stdlib Require DecimalPos DecimalZ.
Import ListNotations.

Local Open Scope string_scope.
Local Open Scope list_scope.
Local Open Scope Z_scope.
Local Set Warnings "-register-all".

(** ** JavaScript values *)

Module Js.

(** The numbers of the model: the integers a JavaScript number holds
    exactly, up to Number.MAX_SAFE_INTEGER either way. Each is one number
    of the code, printed by [String] in plain decimal. Fractions and
    larger numbers are left out: no handler computes with a client number,
    they are only tested for truth, compared and passed on. *)
Definition MAX_SAFE_INTEGER : Z := 9007199254740991.

Record number : Type := {
  integer : Z;
  safe : (Z.abs integer <=? MAX_SAFE_INTEGER) = true
}.

(** The number an integer is, when it is a safe one. *)
Definition number_of (z : Z) : option number :=
  match Z.abs z <=? MAX_SAFE_INTEGER as b
        return (Z.abs z <=? MAX_SAFE_INTEGER) = b -> option number with
  | true => fun H => Some {| integer := z; safe := H |}
  | false => fun _ => None
  end eq_refl.

(** A JSON document: what [JSON.parse] and [express.json()] hand to the
    handlers and what a TEXT column written with [JSON.stringify] denotes.
    A string is a sequence of code units below 256, one character of the
    model each. An object lists its properties, each name once, in the
    order JavaScript enumerates them; an assignment adds a new name that
    is no array index, such as imageUrls, at the end. *)
Inductive json : Type :=
| JNull
| JBool (b : bool)
| JNum (n : number)
| JStr (s : string)
| JArr (elems : list json)
| JObj (fields : list (string * json)).

(** What a variable such as [dataObj] can hold while a handler runs:
    [undefined], a primitive, or a reference to an array or an object. An
    array is an object too and can be given named properties next to its
    elements; a JSON document never has them. *)
Inductive value : Type :=
| VUndefined
| VNull
| VBool (b : bool)
| VNum (n : number)
| VStr (s : string)
| VArray (elems : list json) (named : list (string * json))
| VObject (fields : list (string * json)).

Definition value_of (j : json) : value :=
  match j with
  | JNull => VNull
  | JBool b => VBool b
  | JNum n => VNum n
  | JStr s => VStr s
  | JArr l => VArray l []
  | JObj f => VObject f
  end.

(** A property that is absent reads as [undefined]: [None]. *)
Definition value_of_field (o : option json) : value :=
  match o with
  | None => VUndefined
  | Some j => value_of j
  end.

(** Exceptions, and the outcome of a computation that may throw one: the
    TypeError of the language, and the SqliteError of a statement that a
    constraint of the table turns down. *)
Inductive exn : Type := TypeError | SqliteError.

Inductive completion (A : Type) : Type :=
| Normal (a : A)
| Throw (e : exn).
Arguments Normal {A} a.
Arguments Throw {A} e.

Definition bind {A B : Type} (c : completion A) (k : A -> completion B)
  : completion B :=
  match c with
  | Normal a => k a
  | Throw e => Throw e
  end.

(** *** Own properties *)

Fixpoint lookup (k : string) (f : list (string * json)) : option json :=
  match f with
  | [] => None
  | (k', v) :: f' => if String.eqb k k' then Some v else lookup k f'
  end.

(** [o[k] = v] on the property list: an existing property keeps its place. *)
Fixpoint assign (k : string) (v : json) (f : list (string * json))
  : list (string * json) :=
  match f with
  | [] => [(k, v)]
  | (k', v') :: f' =>
      if String.eqb k k' then (k, v) :: f' else (k', v') :: assign k v f'
  end.

(** [v.k], for a name [k] that no prototype defines (the handlers read
    imageUrls, imageUrl, brand, theme, developer and publisher): reading a
    property of [undefined] or [null] throws, a primitive has none. *)
Definition get_prop (v : value) (k : string) : completion (option json) :=
  match v with
  | VUndefined | VNull => Throw TypeError
  | VBool _ | VNum _ | VStr _ => Normal None
  | VArray _ named => Normal (lookup k named)
  | VObject fields => Normal (lookup k fields)
  end.

(** [v.k = x] in sloppy mode (server.js has no "use strict"): the write to a
    primitive is dropped without an error. *)
Definition set_prop (v : value) (k : string) (x : json) : completion value :=
  match v with
  | VUndefined | VNull => Throw TypeError
  | VBool _ | VNum _ | VStr _ => Normal v
  | VArray elems named => Normal (VArray elems (assign k x named))
  | VObject fields => Normal (VObject (assign k x fields))
  end.

(** *** Coercions and comparisons *)

(** Truthiness, as [x ? a : b], [x || d] and [if (x)] test it. *)
Definition truthy (o : option json) : bool :=
  match o with
  | None | Some JNull => false
  | Some (JBool b) => b
  | Some (JNum n) => negb (integer n =? 0)
  | Some (JStr s) => negb (String.eqb s "")
  | Some (JArr _) | Some (JObj _) => true
  end.

Definition truthy_string (o : option string) : bool :=
  match o with
  | None => false
  | Some s => negb (String.eqb s "")
  end.

(** [s || d] on a string that may be absent. *)
Definition or_default (o : option string) (d : string) : string :=
  match o with
  | Some s => if String.eqb s "" then d else s
  | None => d
  end.

(** [s || null]. *)
Definition or_null (o : option string) : option string :=
  match o with
  | Some s => if String.eqb s "" then None else Some s
  | None => None
  end.

(** [x === 'true'] and [x === true]. *)
Definition strict_eq_string (o : option json) (s : string) : bool :=
  match o with
  | Some (JStr t) => String.eqb t s
  | _ => false
  end.

Definition strict_eq_true (o : option json) : bool :=
  match o with
  | Some (JBool true) => true
  | _ => false
  end.

(** [Array.isArray(x) ? x : []]. *)
Definition array_or_empty (o : option json) : list json :=
  match o with
  | Some (JArr l) => l
  | _ => []
  end.

(** [JSON.stringify(v)], as the document its text denotes: the named
    properties of an array are not written out; [undefined] has no text. *)
Definition JSON_stringify (v : value) : option json :=
  match v with
  | VUndefined => None
  | VNull => Some JNull
  | VBool b => Some (JBool b)
  | VNum n => Some (JNum n)
  | VStr s => Some (JStr s)
  | VArray elems _ => Some (JArr elems)
  | VObject fields => Some (JObj fields)
  end.

(** [String(x)], the key [Array.prototype.sort] compares by default. In an
    array, [join] writes [null] as the empty string. *)
Definition string_of_Z (n : Z) : string := NilZero.string_of_int (Z.to_int n).

Fixpoint to_String (j : json) : string :=
  match j with
  | JNull => "null"
  | JBool true => "true"
  | JBool false => "false"
  | JNum n => string_of_Z (integer n)
  | JStr s => s
  | JArr l =>
      let fix join (l : list json) : string :=
        match l with
        | [] => EmptyString
        | x :: l' =>
            let sx :=
              match x with JNull => EmptyString | _ => to_String x end in
            match l' with
            | [] => sx
            | _ => (sx ++ "," ++ join l')%string
            end
        end in
      join l
  | JObj _ => "[object Object]"
  end.

(** *** Set and sort *)

(** SameValueZero, the equality of [Set]. Two arrays or two objects are the
    same value only when they are the same reference, and every document
    the handlers add to a set comes from a [JSON.parse] call of its own. *)
Definition same_value_zero (a b : json) : bool :=
  match a, b with
  | JNull, JNull => true
  | JBool x, JBool y => Bool.eqb x y
  | JNum x, JNum y => integer x =? integer y
  | JStr x, JStr y => String.eqb x y
  | _, _ => false
  end.

(** [s.add(v)]: a [Set] keeps its values in insertion order. *)
Definition set_add (s : list json) (v : json) : list json :=
  if existsb (same_value_zero v) s then s else s ++ [v].

(** A stable sort: [before y x] says that [y] goes strictly before [x].
    An element is inserted after those strictly before it and ahead of the
    rest, so that equal elements keep their order, as [sort] does. *)
Fixpoint insert_by {A : Type} (before : A -> A -> bool) (x : A) (l : list A)
  : list A :=
  match l with
  | [] => [x]
  | y :: l' => if before y x then y :: insert_by before x l' else x :: l
  end.

Definition sort_by {A : Type} (before : A -> A -> bool) (l : list A)
  : list A :=
  fold_right (insert_by before) [] l.

(** [l.sort()] without a comparator: by the string form, in code-unit
    order. *)
Definition sort (l : list json) : list json :=
  sort_by (fun y x => String.ltb (to_String y) (to_String x)) l.

End Js.
Export Js.

Declare Scope completion_scope.
Notation "x <- c ;; k" := (bind c (fun x => k))
  (at level 61, c at next level, right associativity) : completion_scope.
Local Open Scope completion_scope.

(** ** The items table *)

Module Items.

(** One row of

      CREATE TABLE items (id INTEGER PRIMARY KEY AUTOINCREMENT,
        name TEXT NOT NULL, category TEXT DEFAULT 'Toy',
        collection TEXT NOT NULL, barcode TEXT, owned INTEGER DEFAULT 0,
        data TEXT DEFAULT '{}', created_at DATETIME DEFAULT CURRENT_TIMESTAMP)

    A nullable TEXT column is an option. The data column is kept as the
    document its JSON text denotes, which is what every read of the column
    makes of it; created_at as the second the timestamp names. *)
Record row : Type := {
  id : Z;
  name : string;
  category : option string;
  collection : string;
  barcode : option string;
  owned : Z;
  data : json;
  created_at : Z
}.

(** The table in rowid order, and the largest rowid ever given out (the
    sqlite_sequence entry AUTOINCREMENT keeps). *)
Record table : Type := {
  rows : list row;
  seq : Z
}.

Definition empty : table := {| rows := []; seq := 0 |}.

Definition max_id (l : list row) : Z :=
  fold_right (fun r m => Z.max (id r) m) 0 l.

(** INSERT INTO items (name, category, collection, barcode, owned, data)
    VALUES (?, ?, ?, ?, ?, ?), at the clock value [now]; the rowid is one
    more than the largest that ever existed. Returns lastInsertRowid. *)
Definition insert (now : Z) (t : table)
  (n : string) (cat : string) (col : string) (bar : option string)
  (own : Z) (d : json) : table * Z :=
  let i := Z.max (seq t) (max_id (rows t)) + 1 in
  ({| rows := rows t ++
               [{| id := i; name := n; category := Some cat;
                   collection := col; barcode := bar; owned := own;
                   data := d; created_at := now |}];
      seq := i |}, i).

(** UPDATE items SET name = ?, category = ?, collection = ?, barcode = ?,
    owned = ?, data = ? WHERE id = ? *)
Definition update (t : table)
  (n : string) (cat : string) (col : string) (bar : option string)
  (own : Z) (d : json) (i : Z) : table :=
  {| rows := map (fun r =>
                    if id r =? i
                    then {| id := id r; name := n; category := Some cat;
                            collection := col; barcode := bar; owned := own;
                            data := d; created_at := created_at r |}
                    else r) (rows t);
     seq := seq t |}.

(** UPDATE items SET owned = ? WHERE id = ? *)
Definition update_owned (t : table) (own : Z) (i : Z) : table :=
  {| rows := map (fun r =>
                    if id r =? i
                    then {| id := id r; name := name r;
                            category := category r;
                            collection := collection r;
                            barcode := barcode r; owned := own;
                            data := data r; created_at := created_at r |}
                    else r) (rows t);
     seq := seq t |}.

(** DELETE FROM items WHERE id = ? *)
Definition delete (t : table) (i : Z) : table :=
  {| rows := filter (fun r => negb (id r =? i)) (rows t); seq := seq t |}.

(** WHERE category = ?: a NULL category equals nothing. *)
Definition category_is (c : string) (r : row) : bool :=
  match category r with
  | Some c' => String.eqb c' c
  | None => false
  end.

(** ORDER BY created_at DESC. SQL leaves the order of rows of one second
    open; the model keeps them in rowid order. *)
Definition order_by_created_at_desc (l : list row) : list row :=
  sort_by (fun y x => created_at x <? created_at y) l.

(** The row a rowid names. *)
Definition find (t : table) (i : Z) : option row :=
  List.find (fun r => id r =? i) (rows t).

(** [stmt.run] of the INSERT with the name as the handler has it: an
    absent name is bound as NULL, which NOT NULL turns down for the row
    about to be written; nothing is written then. *)
Definition run_insert (now : Z) (t : table)
  (n : option string) (cat : string) (col : string) (bar : option string)
  (own : Z) (d : json) : completion (table * Z) :=
  match n with
  | Some s => Normal (insert now t s cat col bar own d)
  | None => Throw SqliteError
  end.

(** [stmt.run] of the UPDATE: NOT NULL is checked on the rows the
    statement writes, so a NULL name fails when the id names a row and
    passes, with nothing written, when it names none. *)
Definition run_update (t : table)
  (n : option string) (cat : string) (col : string) (bar : option string)
  (own : Z) (d : json) (i : Z) : completion table :=
  match n with
  | Some s => Normal (update t s cat col bar own d i)
  | None =>
      if existsb (fun r => id r =? i) (rows t)
      then Throw SqliteError
      else Normal t
  end.

End Items.

(** ** Requests *)

Module Req.

(** A file as multer hands it over, under the name its storage gave it. *)
Record file : Type := { filename : string }.

(** [req.body], the fields the handlers destructure. The scalar fields are
    as a form delivers them, a string or absent; [owned] and [data] are any
    value a form or a JSON body can carry. A request that sends a number,
    an array or an object for name, category, collection or barcode is
    outside the model, and nothing below speaks of one. *)
Record fields : Type := {
  name : option string;
  category : option string;
  collection : option string;
  barcode : option string;
  owned : option json;
  data : option json
}.

(** [req.files] is [undefined] unless the request is a multipart form. *)
Record t : Type := {
  body : fields;
  files : option (list file)
}.

End Req.

(** ** A decoder for JSON text

    [JSON.parse] belongs to the platform, and the handlers below take it as
    a parameter. This recursive descent decoder instantiates the parameter
    in the examples. It covers objects, arrays, strings with the one-letter
    escapes, safe integers and the three literals, and turns down the texts
    with a fraction, an exponent, a larger number or a \u escape; it keeps
    the members of an object in the order of the text, and the texts of
    the examples repeat no name and use no array index as a name. *)

Module Json_text.

Definition quote : ascii := ascii_of_nat 34.

Definition is_ws (c : ascii) : bool :=
  (Ascii.eqb c " " || Ascii.eqb c (ascii_of_nat 9)
   || Ascii.eqb c (ascii_of_nat 10) || Ascii.eqb c (ascii_of_nat 13))%bool.

Fixpoint skip_ws (s : string) : string :=
  match s with
  | String c r => if is_ws c then skip_ws r else s
  | EmptyString => s
  end.

Fixpoint strip_prefix (p s : string) : option string :=
  match p, s with
  | EmptyString, _ => Some s
  | String a p', String b s' => if Ascii.eqb a b then strip_prefix p' s' else None
  | String _ _, EmptyString => None
  end.

Definition digit (c : ascii) : option Z :=
  let n := Z.of_nat (nat_of_ascii c) in
  if (48 <=? n) && (n <=? 57) then Some (n - 48) else None.

Fixpoint digits (acc : Z) (s : string) : Z * string :=
  match s with
  | String c r =>
      match digit c with
      | Some d => digits (10 * acc + d) r
      | None => (acc, s)
      end
  | EmptyString => (acc, s)
  end.

(** An integer without a leading zero and with nothing of a fraction or an
    exponent after it. *)
Definition natural (s : string) : option (Z * string) :=
  match s with
  | String c r =>
      match digit c with
      | Some d =>
          let (n, r') := if d =? 0 then (0, r) else digits d r in
          match r' with
          | String c' _ =>
              if (Ascii.eqb c' "." || Ascii.eqb c' "e" || Ascii.eqb c' "E"
                  || match digit c' with Some _ => true | None => false end)%bool
              then None else Some (n, r')
          | EmptyString => Some (n, r')
          end
      | None => None
      end
  | EmptyString => None
  end.

Definition unescape (c : ascii) : option ascii :=
  if Ascii.eqb c quote then Some quote
  else if Ascii.eqb c "\" then Some "\"%char
  else if Ascii.eqb c "/" then Some "/"%char
  else if Ascii.eqb c "b" then Some (ascii_of_nat 8)
  else if Ascii.eqb c "f" then Some (ascii_of_nat 12)
  else if Ascii.eqb c "n" then Some (ascii_of_nat 10)
  else if Ascii.eqb c "r" then Some (ascii_of_nat 13)
  else if Ascii.eqb c "t" then Some (ascii_of_nat 9)
  else None.

(** The characters of a string up to its closing quote. *)
Fixpoint chars (s : string) : option (string * string) :=
  match s with
  | EmptyString => None
  | String c r =>
      if Ascii.eqb c quote then Some (EmptyString, r)
      else if Ascii.eqb c "\" then
        match r with
        | String e r' =>
            match unescape e, chars r' with
            | Some x, Some (body, rest) => Some (String x body, rest)
            | _, _ => None
            end
        | EmptyString => None
        end
      else if (nat_of_ascii c <? 32)%nat then None
      else
        match chars r with
        | Some (body, rest) => Some (String c body, rest)
        | None => None
        end
  end.

Fixpoint element (n : nat) (s : string) : option (json * string) :=
  match n with
  | O => None
  | S n' =>
      match skip_ws s with
      | String c r =>
          if Ascii.eqb c "[" then
            match skip_ws r with
            | String c' r' =>
                if Ascii.eqb c' "]" then Some (JArr [], r')
                else elements n' r []
            | EmptyString => None
            end
          else if Ascii.eqb c "{" then
            match skip_ws r with
            | String c' r' =>
                if Ascii.eqb c' "}" then Some (JObj [], r')
                else members n' r []
            | EmptyString => None
            end
          else if Ascii.eqb c quote then
            match chars r with
            | Some (body, rest) => Some (JStr body, rest)
            | None => None
            end
          else if Ascii.eqb c "-" then
            match natural r with
            | Some (z, rest) =>
                match number_of (- z) with
                | Some n => Some (JNum n, rest)
                | None => None
                end
            | None => None
            end
          else
            match strip_prefix "true" (String c r),
                  strip_prefix "false" (String c r),
                  strip_prefix "null" (String c r) with
            | Some rest, _, _ => Some (JBool true, rest)
            | _, Some rest, _ => Some (JBool false, rest)
            | _, _, Some rest => Some (JNull, rest)
            | None, None, None =>
                match natural (String c r) with
                | Some (z, rest) =>
                    match number_of z with
                    | Some n => Some (JNum n, rest)
                    | None => None
                    end
                | None => None
                end
            end
      | EmptyString => None
      end
  end
with elements (n : nat) (s : string) (acc : list json)
  : option (json * string) :=
  match n with
  | O => None
  | S n' =>
      match element n' s with
      | Some (v, r) =>
          match skip_ws r with
          | String c r' =>
              if Ascii.eqb c "," then elements n' r' (acc ++ [v])
              else if Ascii.eqb c "]" then Some (JArr (acc ++ [v]), r')
              else None
          | EmptyString => None
          end
      | None => None
      end
  end
with members (n : nat) (s : string) (acc : list (string * json))
  : option (json * string) :=
  match n with
  | O => None
  | S n' =>
      match skip_ws s with
      | String q r =>
          if Ascii.eqb q quote then
            match chars r with
            | Some (k, r1) =>
                match skip_ws r1 with
                | String colon r2 =>
                    if Ascii.eqb colon ":" then
                      match element n' r2 with
                      | Some (v, r3) =>
                          match skip_ws r3 with
                          | String c r4 =>
                              if Ascii.eqb c "," then
                                members n' r4 (assign k v acc)
                              else if Ascii.eqb c "}" then
                                Some (JObj (assign k v acc), r4)
                              else None
                          | EmptyString => None
                          end
                      | None => None
                      end
                    else None
                | EmptyString => None
                end
            | None => None
            end
          else None
      | EmptyString => None
      end
  end.

(** The whole text has to be one value: [None] is the SyntaxError. *)
Definition parse (s : string) : option json :=
  match element (2 * String.length s + 2) s with
  | Some (v, r) =>
      match skip_ws r with
      | EmptyString => Some v
      | String _ _ => None
      end
  | None => None
  end.

End Json_text.

(** ** The routes *)

(** An item as the listing sends it: the columns of the row, with owned
    as a boolean. *)
Record listed : Type := {
  row_of : Items.row;
  owned_of : bool
}.

(** What a handler sends: [res.json(items)], the five arrays of the
    metadata, [res.json({ id, ...dataObj })] as the value written for id
    (lastInsertRowid or the path parameter) and the properties spread
    after it, [res.json({ success: true })],
    [res.status(500).json({ error })], or nothing when an exception leaves
    the handler and Express answers for it. In [Merged] a spread property
    named id takes the place of the id written first: what the client
    reads as id is [answered_id] below. *)
Inductive response : Type :=
| Listed (items : list listed)
| Metadata (collection brand theme developer publisher : list json)
| Merged (id : Z) (props : list (string * json))
| Success
| Status500 (error : string)
| Uncaught (e : exn).

(** [{ ...v }]: the own enumerable properties of [v]. *)
Definition index_key (i : nat) : string :=
  NilZero.string_of_uint (Nat.to_uint i).

Fixpoint indexed {A : Type} (i : nat) (l : list A) : list (string * A) :=
  match l with
  | [] => []
  | x :: l' => (index_key i, x) :: indexed (S i) l'
  end.

Fixpoint letters (s : string) : list json :=
  match s with
  | EmptyString => []
  | String c r => JStr (String c EmptyString) :: letters r
  end.

Definition spread (v : value) : list (string * json) :=
  match v with
  | VUndefined | VNull | VBool _ | VNum _ => []
  | VStr s => indexed 0 (letters s)
  | VArray elems named => indexed 0 elems ++ named
  | VObject fields => fields
  end.

(** [{ ...item, owned: Boolean(item.owned), data: JSON.parse(item.data) }] *)
Definition view (r : Items.row) : listed :=
  {| row_of := r; owned_of := negb (Items.owned r =? 0) |}.

(** The five sets of the metadata route. *)
Record metadata : Type := {
  collections : list json;
  brands : list json;
  themes : list json;
  developers : list json;
  publishers : list json
}.

(** [if (x) s.add(x)] *)
Definition add_if (s : list json) (o : option json) : list json :=
  match o with
  | Some j => if truthy o then set_add s j else s
  | None => s
  end.

(** [items.forEach(f)], the accumulator threaded through, stopping at the
    first exception. *)
Fixpoint forEach {A S : Type} (f : S -> A -> completion S) (l : list A)
  (s : S) : completion S :=
  match l with
  | [] => Normal s
  | x :: l' => s' <- f s x ;; forEach f l' s'
  end.

(** The text of [JSON.stringify(dataObj)] as the data parameter. Only
    [undefined] has no text. [processItemData] returns no [dataObj] that
    is [undefined] (lemma [processItemData_returns]), so the second branch
    is never taken by a handler; the model has no row for it and stops. *)
Definition bind_json (o : option json) : completion json :=
  match o with
  | Some j => Normal j
  | None => Throw TypeError
  end.

(** What [processItemData] returns: the fields of the body next to the
    merged [dataObj]. *)
Record processed : Type := {
  fields_of : Req.fields;
  dataObj : value
}.

(** [x.length > 0 ? x[0] : null] for the value read back from
    [dataObj.imageUrls]: the array just assigned, or [undefined] when
    [dataObj] is a primitive and dropped the assignment. Nothing else is
    read back there. *)
Definition first_or_null (x : option json) : completion json :=
  match x with
  | None | Some JNull => Throw TypeError
  | Some (JArr l) =>
      Normal (if (0 <? Z.of_nat (List.length l)) then nth 0 l JNull else JNull)
  | Some _ => Normal JNull
  end.

Section Server.

(** [JSON.parse]: [None] when it throws its SyntaxError. *)
Variable JSON_parse : string -> option json.

(** [try { dataObj = typeof data === 'string' ? JSON.parse(data) : data; }
    catch (e) {}] on [let dataObj = {}]: the value [dataObj] holds after
    it. Only [JSON.parse] can throw, and then [dataObj] is left as it
    was. *)
Definition try_parse (data : option json) : value :=
  match data with
  | Some (JStr s) =>
      match JSON_parse s with
      | Some j => value_of j
      | None => VObject []
      end
  | _ => value_of_field data
  end.

(** [req.files ? req.files.map(f => `/uploads/${f.filename}`) : []] *)
Definition newImages (req : Req.t) : list json :=
  match Req.files req with
  | Some fs => map (fun f => JStr ("/uploads/" ++ Req.filename f)%string) fs
  | None => []
  end.

(** [const processItemData = (req) => { ... }] *)
Definition processItemData (req : Req.t) : completion processed :=
  let dataObj := try_parse (Req.data (Req.body req)) in
  imageUrls <- get_prop dataObj "imageUrls" ;;
  let existingImages := array_or_empty imageUrls in
  dataObj <-
    set_prop dataObj "imageUrls" (JArr (existingImages ++ newImages req)) ;;
  imageUrls <- get_prop dataObj "imageUrls" ;;
  imageUrl <- first_or_null imageUrls ;;
  dataObj <- set_prop dataObj "imageUrl" imageUrl ;;
  Normal {| fields_of := Req.body req; dataObj := dataObj |}.

(** [app.get('/api/items', ...)], with the optional category filter. No
    statement of its try block throws in the model. *)
Definition get_items (t : Items.table) (category : option string)
  : response :=
  let selected :=
    match category with
    | Some c =>
        if truthy_string category
        then filter (Items.category_is c) (Items.rows t)
        else Items.rows t
    | None => Items.rows t
    end in
  Listed (map view (Items.order_by_created_at_desc selected)).

(** The same route in the earlier version of the file: no filter. *)
Definition get_items_unfiltered (t : Items.table) : response :=
  Listed (map view (Items.order_by_created_at_desc (Items.rows t))).

(** The body of [items.forEach(i => { ... })] of the metadata route. The
    [|| '{}'] of [JSON.parse(i.data || '{}')] is for a data column that is
    NULL or empty, which no write of the server leaves behind. *)
Definition collect (m : metadata) (i : Items.row) : completion metadata :=
  let cs :=
    if negb (String.eqb (Items.collection i) "")
    then set_add (collections m) (JStr (Items.collection i))
    else collections m in
  let d := value_of (Items.data i) in
  brand <- get_prop d "brand" ;;
  theme <- get_prop d "theme" ;;
  developer <- get_prop d "developer" ;;
  publisher <- get_prop d "publisher" ;;
  Normal {| collections := cs;
            brands := add_if (brands m) brand;
            themes := add_if (themes m) theme;
            developers := add_if (developers m) developer;
            publishers := add_if (publishers m) publisher |}.

(** [app.get('/api/metadata', ...)] *)
Definition get_metadata (t : Items.table) : response :=
  match forEach collect (Items.rows t)
          {| collections := []; brands := []; themes := [];
             developers := []; publishers := [] |} with
  | Normal m =>
      Metadata (sort (collections m)) (sort (brands m)) (sort (themes m))
               (sort (developers m)) (sort (publishers m))
  | Throw _ => Status500 "DB Error"
  end.

(** [app.post('/api/items', upload.array('images'), ...)] at the clock
    value [now]. An exception leaves the handler with nothing written. *)
Definition post_items (now : Z) (t : Items.table) (req : Req.t)
  : Items.table * response :=
  let run :=
    p <- processItemData req ;;
    let f := fields_of p in
    data <- bind_json (JSON_stringify (dataObj p)) ;;
    info <-
      Items.run_insert now t (Req.name f)
        (or_default (Req.category f) "Toy")
        (or_default (Req.collection f) "General")
        (or_null (Req.barcode f))
        (if strict_eq_string (Req.owned f) "true" || strict_eq_true (Req.owned f)
         then 1 else 0)
        data ;;
    let (t', lastInsertRowid) := info in
    Normal (t', Merged lastInsertRowid (spread (dataObj p))) in
  match run with
  | Normal out => out
  | Throw e => (t, Uncaught e)
  end.

(** [app.put('/api/items/:id', upload.array('images'), ...)]. The path
    parameter is carried as the integer SQLite compares the id column
    with. *)
Definition put_item (t : Items.table) (id : Z) (req : Req.t)
  : Items.table * response :=
  let run :=
    p <- processItemData req ;;
    let f := fields_of p in
    data <- bind_json (JSON_stringify (dataObj p)) ;;
    t' <-
      Items.run_update t (Req.name f)
        (or_default (Req.category f) "Toy")
        (or_default (Req.collection f) "General")
        (or_null (Req.barcode f))
        (if strict_eq_string (Req.owned f) "true" || strict_eq_true (Req.owned f)
         then 1 else 0)
        data id ;;
    Normal (t', Merged id (spread (dataObj p))) in
  match run with
  | Normal out => out
  | Throw e => (t, Uncaught e)
  end.

(** [app.post('/api/items/:id/toggle', ...)], on [req.body.owned]. *)
Definition post_toggle (t : Items.table) (id : Z) (owned : option json)
  : Items.table * response :=
  (Items.update_owned t (if truthy owned then 1 else 0) id, Success).

(** [app.delete('/api/items/:id', ...)] *)
Definition delete_item (t : Items.table) (id : Z)
  : Items.table * response :=
  (Items.delete t id, Success).

(** One request to the server. *)
Inductive call : Type :=
| GET_items (category : option string)
| GET_metadata
| POST_items (req : Req.t)
| PUT_item (id : Z) (req : Req.t)
| POST_toggle (id : Z) (owned : option json)
| DELETE_item (id : Z).

Definition handle (now : Z) (t : Items.table) (c : call)
  : Items.table * response :=
  match c with
  | GET_items category => (t, get_items t category)
  | GET_metadata => (t, get_metadata t)
  | POST_items req => post_items now t req
  | PUT_item id req => put_item t id req
  | POST_toggle id owned => post_toggle t id owned
  | DELETE_item id => delete_item t id
  end.

(** The tables the server can hold: the empty one it creates, and what the
    routes make of it. *)
Inductive reachable : Items.table -> Prop :=
| reachable_empty : reachable Items.empty
| reachable_handle (now : Z) (t : Items.table) (c : call) :
    reachable t -> reachable (fst (handle now t c)).

End Server.

(** ** Vocabulary of the statements *)

(** The field [k] of a stored attribute blob. *)
Definition field (d : json) (k : string) : option json :=
  match d with
  | JObj f => lookup k f
  | _ => None
  end.

(** The named properties a payload brings along, when it can carry any. *)
Definition props (v : value) : option (list (string * json)) :=
  match v with
  | VObject f => Some f
  | VArray _ named => Some named
  | _ => None
  end.

(** The cover image of a sequence: its first element, or null. *)
Definition cover (l : list json) : json :=
  match l with
  | x :: _ => x
  | [] => JNull
  end.

(** A blob whose imageUrls is an array and whose imageUrl is its cover. *)
Definition images_consistent (d : json) : Prop :=
  exists l, field d "imageUrls" = Some (JArr l)
            /\ field d "imageUrl" = Some (cover l).



(** A request that attaches no file. *)
Definition no_files (req : Req.t) : Prop :=
  Req.files req = None \/ Req.files req = Some [].

(** The same request with another attribute payload. *)
Definition with_data (req : Req.t) (d : option json) : Req.t :=
  {| Req.body :=
       {| Req.name := Req.name (Req.body req);
          Req.category := Req.category (Req.body req);
          Req.collection := Req.collection (Req.body req);
          Req.barcode := Req.barcode (Req.body req);
          Req.owned := Req.owned (Req.body req);
          Req.data := d |};
     Req.files := Req.files req |}.

(** The files of a request in the order they were received, and the path
    a stored file is served under. *)
Definition attached (req : Req.t) : list Req.file :=
  match Req.files req with
  | Some fs => fs
  | None => []
  end.

Definition path_for (f : Req.file) : json :=
  JStr ("/uploads/" ++ Req.filename f)%string.

(** Rows in the order of ORDER BY created_at DESC. *)
Definition newest_first (l : list Items.row) : Prop :=
  StronglySorted (fun a b => Items.created_at b <= Items.created_at a) l.

(** A value [Set] compares by what it is, not by where it lives. *)
Definition primitive (j : json) : bool :=
  match j with
  | JArr _ | JObj _ => false
  | _ => true
  end.





(** The first property named [k] of a property list has the value [v]. *)
Inductive has_field : list (string * json) -> string -> json -> Prop :=
| has_field_here (k : string) (v : json) (f : list (string * json)) :
    has_field ((k, v) :: f) k v
| has_field_later (k k' : string) (v v' : json) (f : list (string * json)) :
    k' <> k -> has_field f k v -> has_field ((k', v') :: f) k v.

(** The attribute payload of a request is an object with the properties
    [f]: sent as one, sent as a string that decodes to one, or sent as a
    string that does not decode, which counts as the empty object. *)
Inductive sends_object (parse : string -> option json)
  : option json -> list (string * json) -> Prop :=
| sends_object_itself (f : list (string * json)) :
    sends_object parse (Some (JObj f)) f
| sends_object_text (s : string) (f : list (string * json)) :
    parse s = Some (JObj f) -> sends_object parse (Some (JStr s)) f
| sends_undecodable (s : string) :
    parse s = None -> sends_object parse (Some (JStr s)) [].

(** The attribute payload is an array, sent as one or as a string. *)
Inductive sends_array (parse : string -> option json)
  : option json -> Prop :=
| sends_array_itself (l : list json) : sends_array parse (Some (JArr l))
| sends_array_text (s : string) (l : list json) :
    parse s = Some (JArr l) -> sends_array parse (Some (JStr s)).

(** The named properties a payload brings to the merge: those of an
    object; an array brings none. *)
Definition carries (parse : string -> option json) (data : option json)
  (f : list (string * json)) : Prop :=
  sends_object parse data f \/ (sends_array parse data /\ f = []).

(** The images a payload sends back: its imageUrls when that is an array,
    none when the property is absent or is no array. *)
Inductive echoes : list (string * json) -> list json -> Prop :=
| echoes_array (f : list (string * json)) (l : list json) :
    has_field f "imageUrls" (JArr l) -> echoes f l
| echoes_absent (f : list (string * json)) :
    (forall v, ~ has_field f "imageUrls" v) -> echoes f []
| echoes_other (f : list (string * json)) (v : json) :
    has_field f "imageUrls" v -> (forall l, v <> JArr l) -> echoes f [].

(** What the client reads as id in [{ id, ...dataObj }]: the value written
    first, unless a property named id is spread over it. *)
Definition answered_id (r : response) : option (Z + json) :=
  match r with
  | Merged i props =>
      match lookup "id" props with
      | Some v => Some (inr v)
      | None => Some (inl i)
      end
  | _ => None
  end.

(** ** Sample requests and tables *)

Definition seven_number : number := {| integer := 7; safe := eq_refl |}.

Definition form (n : string) (d : option json) : Req.fields :=
  {| Req.name := Some n; Req.category := None; Req.collection := None;
     Req.barcode := None; Req.owned := None; Req.data := d |}.

Definition a_png : Req.file := {| Req.filename := "1700000000001-11.png" |}.
Definition b_png : Req.file := {| Req.filename := "1700000000002-22.png" |}.

(** A form that creates an item with two pictures and an empty blob. *)
Definition create_robot : Req.t :=
  {| Req.body := form "Robot" (Some (JStr "{}"));
     Req.files := Some [a_png; b_png] |}.

(** The table after that creation, at second 100 on the empty table. *)
Definition shelf : Items.table :=
  fst (post_items Json_text.parse 100 Items.empty create_robot).

(** A JSON update that names a brand and no image. *)
Definition rebrand : Req.t :=
  {| Req.body := form "Robot" (Some (JObj [("brand", JStr "Acme")]));
     Req.files := None |}.


(** A form whose blob is not JSON, one with no blob, one whose blob is the
    text null. *)
Definition garbled : Req.t :=
  {| Req.body := form "Robot" (Some (JStr "{oops")); Req.files := Some [a_png] |}.

Definition blobless : Req.t :=
  {| Req.body := form "Robot" None; Req.files := Some [] |}.

Definition null_text : Req.t :=
  {| Req.body := form "Robot" (Some (JStr "null")); Req.files := Some [] |}.

(** The row of the robot on the shelf. *)
Definition robot_row : Items.row :=
  {| Items.id := 1; Items.name := "Robot"; Items.category := Some "Toy";
     Items.collection := "General"; Items.barcode := None; Items.owned := 0;
     Items.data :=
       JObj [("imageUrls", JArr [path_for a_png; path_for b_png]);
             ("imageUrl", path_for a_png)];
     Items.created_at := 100 |}.

(** A form that sends owned as the text false. *)
Definition disown : Req.t :=
  {| Req.body :=
       {| Req.name := Some "Robot"; Req.category := None;
          Req.collection := None; Req.barcode := None;
          Req.owned := Some (JStr "false"); Req.data := Some (JStr "{}") |};
     Req.files := Some [] |}.

(** A JSON creation whose blob is an array, one whose brand is a number. *)
Definition listed_blob : Req.t :=
  {| Req.body := form "Robot" (Some (JArr [])); Req.files := None |}.


(** The JSON creation of an owned game on a shelf, and three of them on
    two shelves. *)
Definition shelved (n : string) (col : string) : Req.t :=
  {| Req.body :=
       {| Req.name := Some n; Req.category := Some "Game";
          Req.collection := Some col; Req.barcode := None;
          Req.owned := Some (JBool true); Req.data := Some (JObj []) |};
     Req.files := None |}.

Definition three_games : Items.table :=
  let t1 := fst (post_items Json_text.parse 10 Items.empty (shelved "X" "Shelf B")) in
  let t2 := fst (post_items Json_text.parse 20 t1 (shelved "Y" "Shelf A")) in
  fst (post_items Json_text.parse 30 t2 (shelved "Z" "Shelf B")).

(** ** The upload names, the earlier handlers, and runs of requests *)

Section Upload.

(** [path.extname], of the platform. *)
Variable extname : string -> string.

(** [Date.now() + '-' + Math.round(Math.random() * 1E9)], from the clock in
    milliseconds and the rounded draw. *)
Definition uniqueSuffix (now draw : Z) : string :=
  (string_of_Z now ++ "-" ++ string_of_Z draw)%string.

(** The [filename] callback of [multer.diskStorage]: the name a file sent
    as [originalname] is stored under. *)
Definition filename (now draw : Z) (originalname : string) : string :=
  (uniqueSuffix now draw ++ extname originalname)%string.

End Upload.

(** What stands in for [path.extname] in the examples: the name from its
    last dot on, nothing when it has no dot. *)
Fixpoint suffix_from_last_dot (s : string) : string :=
  match s with
  | EmptyString => EmptyString
  | String c r =>
      match suffix_from_last_dot r with
      | EmptyString => if Ascii.eqb c "." then s else EmptyString
      | later => later
      end
  end.

Section Earlier.

Variable JSON_parse : string -> option json.

(** [processItemData] of the earlier version of the file: the merged
    sequence is kept in [finalImageUrls] and not read back from
    [dataObj]. *)
Definition processItemData_v1 (req : Req.t) : completion processed :=
  let dataObj := try_parse JSON_parse (Req.data (Req.body req)) in
  imageUrls <- get_prop dataObj "imageUrls" ;;
  let existingImages := array_or_empty imageUrls in
  let finalImageUrls := existingImages ++ newImages req in
  dataObj <- set_prop dataObj "imageUrls" (JArr finalImageUrls) ;;
  dataObj <-
    set_prop dataObj "imageUrl"
      (if 0 <? Z.of_nat (List.length finalImageUrls)
       then nth 0 finalImageUrls JNull else JNull) ;;
  Normal {| fields_of := Req.body req; dataObj := dataObj |}.

(** [app.post('/api/items', ...)] of the earlier version. *)
Definition post_items_v1 (now : Z) (t : Items.table) (req : Req.t)
  : Items.table * response :=
  let run :=
    p <- processItemData_v1 req ;;
    let f := fields_of p in
    data <- bind_json (JSON_stringify (dataObj p)) ;;
    info <-
      Items.run_insert now t (Req.name f)
        (or_default (Req.category f) "Toy")
        (or_default (Req.collection f) "General")
        (or_null (Req.barcode f))
        (if strict_eq_string (Req.owned f) "true" || strict_eq_true (Req.owned f)
         then 1 else 0)
        data ;;
    let (t', lastInsertRowid) := info in
    Normal (t', Merged lastInsertRowid (spread (dataObj p))) in
  match run with
  | Normal out => out
  | Throw e => (t, Uncaught e)
  end.

(** The properties [res.json] writes after the id for
    [{ id, name, category, collection, barcode, owned, data: dataObj }]:
    one that is [undefined] is left out. *)
Definition echoed (f : Req.fields) (d : option json)
  : list (string * json) :=
  let text (k : string) (o : option string) :=
    match o with Some s => [(k, JStr s)] | None => [] end in
  let any (k : string) (o : option json) :=
    match o with Some j => [(k, j)] | None => [] end in
  text "name" (Req.name f) ++ text "category" (Req.category f)
  ++ text "collection" (Req.collection f) ++ text "barcode" (Req.barcode f)
  ++ any "owned" (Req.owned f) ++ any "data" d.

(** [app.put('/api/items/:id', ...)] of the earlier version: the same
    statement, and the fields of the request sent back. *)
Definition put_item_v1 (t : Items.table) (id : Z) (req : Req.t)
  : Items.table * response :=
  let run :=
    p <- processItemData_v1 req ;;
    let f := fields_of p in
    data <- bind_json (JSON_stringify (dataObj p)) ;;
    t' <-
      Items.run_update t (Req.name f)
        (or_default (Req.category f) "Toy")
        (or_default (Req.collection f) "General")
        (or_null (Req.barcode f))
        (if strict_eq_string (Req.owned f) "true" || strict_eq_true (Req.owned f)
         then 1 else 0)
        data id ;;
    Normal (t', Merged id (echoed f (JSON_stringify (dataObj p)))) in
  match run with
  | Normal out => out
  | Throw e => (t, Uncaught e)
  end.

(** The table after a run of requests, each at its clock value. *)
Definition run (trace : list (Z * call)) (t : Items.table) : Items.table :=
  fold_left (fun t nc => fst (handle JSON_parse (fst nc) t (snd nc))) trace t.

End Earlier.

(** Ids in a table the server can hold: positive, below the counter, and
    no two alike. *)
Definition ids_ok (t : Items.table) : Prop :=
  NoDup (map Items.id (Items.rows t))
  /\ forall r, In r (Items.rows t) -> 0 < Items.id r <= Items.seq t.

(** What identifies a row for good: its id and its creation time. *)
Definition identity (r : Items.row) : Z * Z :=
  (Items.id r, Items.created_at r).

(** A string of decimal digits, and a string that does not go on with
    one. *)
Fixpoint all_digits (s : string) : bool :=
  match s with
  | EmptyString => true
  | String c r =>
      match Json_text.digit c with
      | Some _ => all_digits r
      | None => false
      end
  end.

Definition no_digit_ahead (s : string) : bool :=
  match s with
  | EmptyString => true
  | String c _ =>
      match Json_text.digit c with
      | Some _ => false
      | None => true
      end
  end.

(** The items of a listing. *)
Definition items_of (r : response) : list listed :=
  match r with
  | Listed l => l
  | _ => []
  end.

(** The primitive a payload is, when it is one. *)
Definition primitive_of (v : value) : option json :=
  match v with
  | VBool b => Some (JBool b)
  | VNum n => Some (JNum n)
  | VStr s => Some (JStr s)
  | _ => None
  end.

(** A form that sends one picture back, names a cover of its own and
    brings two new pictures. *)
Definition old_png : json := JStr "/uploads/1600000000000-5.png".

Definition restock : Req.t :=
  {| Req.body :=
       form "Robot"
         (Some (JObj [("imageUrl", JStr "/uploads/mine.png");
                      ("imageUrls", JArr [old_png])]));
     Req.files := Some [a_png; b_png] |}.

(** A JSON update with an empty blob and no name, and a JSON creation
    whose blob has an id of its own. *)
Definition nameless : Req.t :=
  {| Req.body :=
       {| Req.name := None; Req.category := None; Req.collection := None;
          Req.barcode := None; Req.owned := None;
          Req.data := Some (JObj []) |};
     Req.files := None |}.

Definition claims_id : Req.t :=
  {| Req.body := form "Copy" (Some (JObj [("id", JNum seven_number)]));
     Req.files := None |}.

(** Two JSON creations whose brand is an empty object, on the empty
    table. *)
Definition boxed : Req.t :=
  {| Req.body := form "Box" (Some (JObj [("brand", JObj [])]));
     Req.files := None |}.

Definition two_boxes : Items.table :=
  fst (post_items Json_text.parse 20
         (fst (post_items Json_text.parse 10 Items.empty boxed)) boxed).

(** A JSON creation whose blob is the number 7, the deletion of the robot,
    and a later creation. *)
Definition seven : Req.t :=
  {| Req.body := form "Seven" (Some (JNum seven_number)); Req.files := None |}.

Definition robot_then_gone : list (Z * call) :=
  [(110, DELETE_item 1); (120, GET_items None)].

(** The robot once the text false was sent to its toggle, and a game put on
    the shelf at second 200. *)
Definition robot_owned : Items.row :=
  {| Items.id := 1; Items.name := "Robot"; Items.category := Some "Toy";
     Items.collection := "General"; Items.barcode := None; Items.owned := 1;
     Items.data := Items.data robot_row; Items.created_at := 100 |}.

Definition game_row : Items.row :=
  {| Items.id := 2; Items.name := "Y"; Items.category := Some "Game";
     Items.collection := "Shelf A"; Items.barcode := None; Items.owned := 1;
     Items.data := JObj [("imageUrls", JArr []); ("imageUrl", JNull)];
     Items.created_at := 200 |}.

(** ** Properties *)

Section Properties.

Variable JSON_parse : string -> option json.

(** *** Values and the merge *)

Lemma lookup_assign_same (k : string) (v : json) (f : list (string * json)) :
  lookup k (assign k v f) = Some v.
Proof.
  induction f as [|[k' v'] f IH]; simpl.
  - now rewrite String.eqb_refl.
  - destruct (String.eqb k k') eqn:E; simpl.
    + now rewrite String.eqb_refl.
    + now rewrite E.
Qed.

Lemma lookup_assign_other (k k' : string) (v : json)
  (f : list (string * json)) :
  String.eqb k' k = false -> lookup k' (assign k v f) = lookup k' f.
Proof.
  intros Hk. induction f as [|[k0 v0] f IH]; simpl.
  - now rewrite Hk.
  - destruct (String.eqb k k0) eqn:E; simpl.
    + apply String.eqb_eq in E. subst k0. now rewrite Hk.
    + now rewrite IH.
Qed.

Lemma first_or_null_array (l : list json) :
  first_or_null (Some (JArr l)) = Normal (cover l).
Proof. destruct l; reflexivity. Qed.

(** Reads the image fields back from a blob they were assigned to. *)
Ltac image_fields :=
  cbn [field Items.data dataObj get_prop];
  repeat first [ rewrite lookup_assign_same
               | rewrite lookup_assign_other by reflexivity ].

(** What [processItemData] makes of a payload that carries properties. *)
Lemma processItemData_object (req : Req.t) (f : list (string * json)) :
  try_parse JSON_parse (Req.data (Req.body req)) = VObject f ->
  let l := array_or_empty (lookup "imageUrls" f) ++ newImages req in
  processItemData JSON_parse req
  = Normal {| fields_of := Req.body req;
              dataObj := VObject (assign "imageUrl" (cover l)
                                    (assign "imageUrls" (JArr l) f)) |}.
Proof.
  intros H l. unfold processItemData. rewrite H.
  cbn [get_prop set_prop bind]. rewrite lookup_assign_same.
  cbn [bind]. fold l. rewrite first_or_null_array. reflexivity.
Qed.

Lemma processItemData_array (req : Req.t) (elems : list json)
  (named : list (string * json)) :
  try_parse JSON_parse (Req.data (Req.body req)) = VArray elems named ->
  let l := array_or_empty (lookup "imageUrls" named) ++ newImages req in
  processItemData JSON_parse req
  = Normal {| fields_of := Req.body req;
              dataObj := VArray elems
                           (assign "imageUrl" (cover l)
                              (assign "imageUrls" (JArr l) named)) |}.
Proof.
  intros H l. unfold processItemData. rewrite H.
  cbn [get_prop set_prop bind]. rewrite lookup_assign_same.
  cbn [bind]. fold l. rewrite first_or_null_array. reflexivity.
Qed.

(** Any other payload has the request fail in [processItemData]. *)
Lemma processItemData_throws (req : Req.t) :
  props (try_parse JSON_parse (Req.data (Req.body req))) = None ->
  processItemData JSON_parse req = Throw TypeError.
Proof.
  unfold processItemData.
  destruct (try_parse JSON_parse (Req.data (Req.body req)));
    simpl; intros H; try reflexivity; discriminate.
Qed.

(** *** The table *)

Lemma max_id_bound (l : list Items.row) (r : Items.row) :
  In r l -> Items.id r <= Items.max_id l.
Proof.
  induction l as [|x l IH]; simpl; [tauto|].
  intros [->|H]; [lia|]. specialize (IH H). lia.
Qed.

Lemma find_fresh {A : Type} (f : A -> bool) (l : list A) (x : A) :
  (forall y, In y l -> f y = false) -> f x = true ->
  List.find f (l ++ [x]) = Some x.
Proof.
  intros Hl Hx. induction l as [|y l IH]; simpl.
  - now rewrite Hx.
  - rewrite (Hl y) by now left. apply IH. intros z Hz. apply Hl. now right.
Qed.

(** The row an INSERT adds is the one its rowid names. *)
Lemma find_insert (now : Z) (t : Items.table) (n cat col : string)
  (bar : option string) (own : Z) (d : json) :
  let out := Items.insert now t n cat col bar own d in
  Items.find (fst out) (snd out)
  = Some {| Items.id := snd out; Items.name := n;
            Items.category := Some cat; Items.collection := col;
            Items.barcode := bar; Items.owned := own; Items.data := d;
            Items.created_at := now |}.
Proof.
  unfold Items.insert, Items.find. cbn [fst snd Items.rows].
  apply find_fresh.
  - intros y Hy. apply max_id_bound in Hy. apply Z.eqb_neq. lia.
  - apply Z.eqb_refl.
Qed.

(** The row an UPDATE rewrites keeps its id and its creation time. *)
Lemma find_update (t : Items.table) (n cat col : string)
  (bar : option string) (own : Z) (d : json) (i : Z) (r : Items.row) :
  Items.find t i = Some r ->
  Items.find (Items.update t n cat col bar own d i) i
  = Some {| Items.id := Items.id r; Items.name := n;
            Items.category := Some cat; Items.collection := col;
            Items.barcode := bar; Items.owned := own; Items.data := d;
            Items.created_at := Items.created_at r |}.
Proof.
  unfold Items.find, Items.update. cbn [Items.rows].
  induction (Items.rows t) as [|x l IH]; simpl; [discriminate|].
  destruct (Items.id x =? i) eqn:E; simpl; rewrite E.
  - now intros [= ->].
  - exact IH.
Qed.

Lemma find_update_owned (t : Items.table) (own i : Z) (r : Items.row) :
  Items.find t i = Some r ->
  exists r', Items.find (Items.update_owned t own i) i = Some r'
             /\ Items.owned r' = own /\ Items.data r' = Items.data r.
Proof.
  unfold Items.find, Items.update_owned. cbn [Items.rows].
  induction (Items.rows t) as [|x l IH]; simpl; [discriminate|].
  destruct (Items.id x =? i) eqn:E; simpl; rewrite E.
  - intros [= ->]. eexists. split; [reflexivity|]. now split.
  - exact IH.
Qed.

Lemma find_absent (t : Items.table) (i : Z) :
  Items.find t i = None ->
  forall r, In r (Items.rows t) -> (Items.id r =? i) = false.
Proof.
  unfold Items.find. intros H r Hr.
  exact (List.find_none _ _ H r Hr).
Qed.

Lemma map_unchanged {A : Type} (g : A -> A) (l : list A) :
  (forall x, In x l -> g x = x) -> map g l = l.
Proof.
  intros H. induction l as [|x l IH]; simpl; [reflexivity|].
  rewrite H by now left. f_equal. apply IH. intros y Hy. apply H. now right.
Qed.

Lemma filter_unchanged {A : Type} (f : A -> bool) (l : list A) :
  (forall x, In x l -> f x = true) -> filter f l = l.
Proof.
  intros H. induction l as [|x l IH]; simpl; [reflexivity|].
  rewrite H by now left. f_equal. apply IH. intros y Hy. apply H. now right.
Qed.

(** A statement whose WHERE clause names no row leaves the table alone. *)
Lemma update_absent (t : Items.table) (n cat col : string)
  (bar : option string) (own : Z) (d : json) (i : Z) :
  Items.find t i = None -> Items.update t n cat col bar own d i = t.
Proof.
  intros H. destruct t as [rows seq]. unfold Items.update. cbn. f_equal.
  apply map_unchanged. intros x Hx.
  now rewrite (find_absent _ _ H x Hx).
Qed.

Lemma delete_absent (t : Items.table) (i : Z) :
  Items.find t i = None -> Items.delete t i = t.
Proof.
  intros H. destruct t as [rows seq]. unfold Items.delete. cbn. f_equal.
  apply filter_unchanged. intros x Hx.
  now rewrite (find_absent _ _ H x Hx).
Qed.

(** *** The two writes, request by request *)

(** The value the two handlers store in the owned column. *)
Lemma owned_column (o : option json) :
  (if strict_eq_string o "true" || strict_eq_true o then 1 else 0) = 1
  <-> o = Some (JBool true) \/ o = Some (JStr "true").
Proof.
  destruct o as [[| [|] | | s | |]|]; cbn;
    try (split; [discriminate | intros [?|?]; discriminate]).
  - split; auto.
  - rewrite orb_false_r. destruct (String.eqb s "true") eqn:E.
    + apply String.eqb_eq in E. subst. split; auto.
    + split; [discriminate|]. intros [?|[= ->]]; discriminate.
Qed.

Lemma post_items_accepted (now : Z) (t : Items.table) (req : Req.t)
  (p : processed) (n : string) (d : json) :
  processItemData JSON_parse req = Normal p ->
  Req.name (fields_of p) = Some n ->
  JSON_stringify (dataObj p) = Some d ->
  let f := fields_of p in
  let out :=
    Items.insert now t n (or_default (Req.category f) "Toy")
      (or_default (Req.collection f) "General") (or_null (Req.barcode f))
      (if strict_eq_string (Req.owned f) "true" || strict_eq_true (Req.owned f)
       then 1 else 0) d in
  post_items JSON_parse now t req
  = (fst out, Merged (snd out) (spread (dataObj p))).
Proof.
  intros Hp Hn Hd f out. unfold post_items. rewrite Hp. cbn [bind].
  rewrite Hn, Hd. reflexivity.
Qed.

Lemma put_item_accepted (t : Items.table) (i : Z) (req : Req.t)
  (p : processed) (n : string) (d : json) :
  processItemData JSON_parse req = Normal p ->
  Req.name (fields_of p) = Some n ->
  JSON_stringify (dataObj p) = Some d ->
  let f := fields_of p in
  put_item JSON_parse t i req
  = (Items.update t n (or_default (Req.category f) "Toy")
       (or_default (Req.collection f) "General") (or_null (Req.barcode f))
       (if strict_eq_string (Req.owned f) "true" || strict_eq_true (Req.owned f)
        then 1 else 0) d i,
     Merged i (spread (dataObj p))).
Proof.
  intros Hp Hn Hd f. unfold put_item. rewrite Hp. cbn [bind].
  rewrite Hn, Hd. reflexivity.
Qed.

(** A request the handlers turn down changes nothing. *)
Lemma put_item_refused (t : Items.table) (i : Z) (req : Req.t) :
  fst (put_item JSON_parse t i req) = t
  \/ exists p n d,
      processItemData JSON_parse req = Normal p
      /\ Req.name (fields_of p) = Some n
      /\ JSON_stringify (dataObj p) = Some d.
Proof.
  unfold put_item.
  destruct (processItemData JSON_parse req) as [p|e] eqn:Hp; [|now left].
  cbn [bind].
  destruct (JSON_stringify (dataObj p)) as [d|] eqn:Hd; [|now left].
  cbn [bind bind_json].
  destruct (Req.name (fields_of p)) as [n|] eqn:Hn.
  - right. now exists p, n, d.
  - left. cbn [Items.run_update].
    destruct (existsb _ (Items.rows t)); reflexivity.
Qed.

(** *** The payload, read off the request *)

Lemma has_field_lookup (f : list (string * json)) (k : string) (v : json) :
  has_field f k v <-> lookup k f = Some v.
Proof.
  split.
  - induction 1 as [k v f | k k' v v' f Hk _ IH]; cbn.
    + now rewrite String.eqb_refl.
    + apply not_eq_sym, String.eqb_neq in Hk. now rewrite Hk.
  - induction f as [|[k' v'] f IH]; cbn; [discriminate|].
    destruct (String.eqb k k') eqn:E.
    + apply String.eqb_eq in E. subst k'. intros [= ->]. constructor.
    + apply String.eqb_neq in E. intros H. constructor; auto.
Qed.

Lemma sends_object_try_parse (data : option json)
  (f : list (string * json)) :
  sends_object JSON_parse data f -> try_parse JSON_parse data = VObject f.
Proof.
  intros [g | s g Hs | s Hs]; cbn; try rewrite Hs; reflexivity.
Qed.

Lemma sends_array_try_parse (data : option json) :
  sends_array JSON_parse data ->
  exists l, try_parse JSON_parse data = VArray l [].
Proof.
  intros [l | s l Hs]; cbn; [|rewrite Hs; cbn]; eauto.
Qed.

Lemma echoes_lookup (f : list (string * json)) (echo : list json) :
  echoes f echo -> array_or_empty (lookup "imageUrls" f) = echo.
Proof.
  intros [g l H | g H | g v H Hv].
  - apply has_field_lookup in H. now rewrite H.
  - destruct (lookup "imageUrls" g) as [v|] eqn:E; [|reflexivity].
    apply has_field_lookup in E. now apply H in E.
  - apply has_field_lookup in H. rewrite H.
    destruct v; try reflexivity. now destruct (Hv elems).
Qed.

(** Every payload [processItemData] returns for is an object or an array,
    and every property list sends some images back or none. *)
Lemma returns_carries (req : Req.t) (p : processed) :
  processItemData JSON_parse req = Normal p ->
  exists f, carries JSON_parse (Req.data (Req.body req)) f.
Proof.
  intros Hp. destruct (Req.data (Req.body req)) as [d|] eqn:Hd.
  - destruct d as [| b | n | s | l | f];
      try (rewrite processItemData_throws in Hp by (now rewrite Hd);
           discriminate Hp).
    + destruct (JSON_parse s) as [j|] eqn:Hs.
      * destruct j as [| b | n | s' | l | f];
          try (rewrite processItemData_throws in Hp
                 by (rewrite Hd; cbn; now rewrite Hs);
               discriminate Hp).
        -- exists []. right. split; [|reflexivity]. now apply (sends_array_text _ s l).
        -- exists f. left. now constructor.
      * exists []. left. now constructor.
    + exists []. right. split; [constructor|reflexivity].
    + exists f. left. constructor.
  - rewrite processItemData_throws in Hp by (now rewrite Hd).
    discriminate Hp.
Qed.

Lemma echoes_total (f : list (string * json)) : exists echo, echoes f echo.
Proof.
  destruct (lookup "imageUrls" f) as [v|] eqn:E.
  - apply has_field_lookup in E. destruct v as [| b | n | s | l | g];
      try (exists []; apply (echoes_other _ _ E); discriminate).
    exists l. now constructor.
  - exists []. apply echoes_absent. intros v H.
    apply has_field_lookup in H. congruence.
Qed.

(** A payload that is an object or an array has [processItemData]
    return. *)
Lemma carries_returns (req : Req.t) (f : list (string * json)) :
  carries JSON_parse (Req.data (Req.body req)) f ->
  exists p, processItemData JSON_parse req = Normal p.
Proof.
  intros [Ho | [Ha ->]].
  - apply sends_object_try_parse in Ho.
    eexists. apply (processItemData_object req f Ho).
  - apply sends_array_try_parse in Ha. destruct Ha as [l Ha].
    eexists. apply (processItemData_array req l [] Ha).
Qed.

(** C2. Whatever the payload is that [processItemData] merges into (an
    object or an array, sent as such or as a string, or the empty object
    of a string that does not decode), the imageUrls of the merged blob is
    the sequence the payload sent back under imageUrls (none when it has
    no such property or the property is no array) followed by the paths of
    the files of the request in the order they came, and its imageUrl is
    the first element of that sequence or null, whatever imageUrl the
    payload had. *)
Theorem merged_images_echo_then_uploads (req : Req.t)
  (f : list (string * json)) (echo : list json) :
  carries JSON_parse (Req.data (Req.body req)) f ->
  echoes f echo ->
  exists p f',
    processItemData JSON_parse req = Normal p
    /\ props (dataObj p) = Some f'
    /\ has_field f' "imageUrls" (JArr (echo ++ map path_for (attached req)))
    /\ has_field f' "imageUrl"
         match echo ++ map path_for (attached req) with
         | first :: _ => first
         | [] => JNull
         end.
Proof.
  intros Hc He.
  assert (Hnew : newImages req = map path_for (attached req)).
  { unfold newImages, attached. destruct (Req.files req); reflexivity. }
  destruct Hc as [Ho | [Ha ->]].
  - apply sends_object_try_parse in Ho.
    pose proof (processItemData_object req f Ho) as Hp. cbn zeta in Hp.
    rewrite (echoes_lookup _ _ He), Hnew in Hp.
    eexists _, _. split; [exact Hp|]. split; [reflexivity|].
    split; apply has_field_lookup; image_fields; reflexivity.
  - apply sends_array_try_parse in Ha. destruct Ha as [l Ha].
    pose proof (processItemData_array req l [] Ha) as Hp. cbn zeta in Hp.
    rewrite (echoes_lookup _ _ He), Hnew in Hp.
    eexists _, _. split; [exact Hp|]. split; [reflexivity|].
    split; apply has_field_lookup; image_fields; reflexivity.
Qed.

(** A request [processItemData] returns for keeps its fields, and its
    [dataObj] has a JSON text. *)
Lemma processItemData_returns (req : Req.t) (p : processed) :
  processItemData JSON_parse req = Normal p ->
  fields_of p = Req.body req
  /\ exists d, JSON_stringify (dataObj p) = Some d.
Proof.
  intros Hp.
  destruct (try_parse JSON_parse (Req.data (Req.body req))) eqn:E;
    try (rewrite processItemData_throws in Hp by (now rewrite E);
         discriminate Hp).
  - rewrite (processItemData_array _ _ _ E) in Hp. injection Hp as <-.
    cbn. eauto.
  - rewrite (processItemData_object _ _ E) in Hp. injection Hp as <-.
    cbn. eauto.
Qed.

(** *** The owned column *)

(** A creation stores 1 for the boolean true and for the text true, and 0
    for anything else. *)
Lemma post_items_owned (now : Z) (t : Items.table) (req : Req.t)
  (p : processed) (n : string) :
  processItemData JSON_parse req = Normal p ->
  Req.name (Req.body req) = Some n ->
  exists r,
    Items.find (fst (post_items JSON_parse now t req))
      (Z.max (Items.seq t) (Items.max_id (Items.rows t)) + 1) = Some r
    /\ (Items.owned r = 1 \/ Items.owned r = 0)
    /\ (Items.owned r = 1 <->
        Req.owned (Req.body req) = Some (JBool true)
        \/ Req.owned (Req.body req) = Some (JStr "true")).
Proof.
  intros Hp Hn. destruct (processItemData_returns req p Hp) as [Hf [d Hd]].
  rewrite <- Hf in Hn.
  rewrite (post_items_accepted now t _ _ _ _ Hp Hn Hd).
  eexists. split; [apply find_insert|]. cbn [Items.owned]. rewrite Hf. split.
  - destruct (strict_eq_string _ _ || strict_eq_true _); auto.
  - apply owned_column.
Qed.

(** So does an update. *)
Lemma put_item_owned (t : Items.table) (id : Z) (r0 : Items.row)
  (req : Req.t) (p : processed) (n : string) :
  Items.find t id = Some r0 ->
  processItemData JSON_parse req = Normal p ->
  Req.name (Req.body req) = Some n ->
  exists r,
    Items.find (fst (put_item JSON_parse t id req)) id = Some r
    /\ (Items.owned r = 1 \/ Items.owned r = 0)
    /\ (Items.owned r = 1 <->
        Req.owned (Req.body req) = Some (JBool true)
        \/ Req.owned (Req.body req) = Some (JStr "true")).
Proof.
  intros Hr Hp Hn. destruct (processItemData_returns req p Hp) as [Hf [d Hd]].
  rewrite <- Hf in Hn.
  rewrite (put_item_accepted t id _ _ _ _ Hp Hn Hd). cbn [fst].
  eexists. split; [apply (find_update _ _ _ _ _ _ _ _ _ Hr)|].
  cbn [Items.owned]. rewrite Hf. split.
  - destruct (strict_eq_string _ _ || strict_eq_true _); auto.
  - apply owned_column.
Qed.

(** The toggle stores 1 for every truthy value. *)
Lemma post_toggle_owned (t : Items.table) (id : Z) (r0 : Items.row)
  (o : option json) :
  Items.find t id = Some r0 ->
  exists r,
    Items.find (fst (post_toggle t id o)) id = Some r
    /\ Items.owned r = (if truthy o then 1 else 0).
Proof.
  intros Hr. unfold post_toggle. cbn [fst].
  destruct (find_update_owned t (if truthy o then 1 else 0) id r0 Hr)
    as (r & H1 & H2 & _).
  now exists r.
Qed.


(** C3, as amended. An accepted update of a stored item whose payload is
    an object without an imageUrls property, and which attaches no file,
    stores a blob with imageUrls = [] and imageUrl = null, whatever images
    the stored item had: the stored images are not carried over. *)
Theorem update_without_images_drops_them
  (t : Items.table) (id : Z) (r : Items.row) (req : Req.t)
  (f : list (string * json)) (n : string) :
  Items.find t id = Some r ->
  sends_object JSON_parse (Req.data (Req.body req)) f ->
  (forall v, ~ has_field f "imageUrls" v) ->
  no_files req ->
  Req.name (Req.body req) = Some n ->
  exists r' f',
    Items.find (fst (put_item JSON_parse t id req)) id = Some r'
    /\ Items.data r' = JObj f'
    /\ has_field f' "imageUrls" (JArr [])
    /\ has_field f' "imageUrl" JNull.
Proof.
  intros Hr Hf Hnone Hfiles Hn.
  apply sends_object_try_parse in Hf.
  pose proof (processItemData_object req f Hf) as Hp. cbn zeta in Hp.
  assert (Hnew : newImages req = []).
  { unfold newImages. destruct Hfiles as [-> | ->]; reflexivity. }
  rewrite (echoes_lookup _ _ (echoes_absent _ Hnone)), Hnew in Hp.
  cbn [app cover] in Hp.
  rewrite (put_item_accepted _ _ _ _ n _ Hp Hn eq_refl). cbn [fst].
  eexists _, _. split; [apply (find_update _ _ _ _ _ _ _ _ _ Hr)|].
  split; [reflexivity|].
  split; apply has_field_lookup; image_fields; reflexivity.
Qed.

(** C5. A payload that comes as a string and does not decode counts as the
    empty object, to which the derived fields are added: the handlers
    answer exactly as they do for an empty object, and a creation that
    names its item goes through and stores that blob. *)
Theorem undecodable_payload_is_empty_object (req : Req.t) (s : string) :
  Req.data (Req.body req) = Some (JStr s) ->
  JSON_parse s = None ->
  let blob := [("imageUrls", JArr (map path_for (attached req)));
               ("imageUrl", cover (map path_for (attached req)))] in
  processItemData JSON_parse req
  = Normal {| fields_of := Req.body req; dataObj := VObject blob |}
  /\ (forall now t,
        post_items JSON_parse now t req
        = post_items JSON_parse now t (with_data req (Some (JObj []))))
  /\ (forall t id,
        put_item JSON_parse t id req
        = put_item JSON_parse t id (with_data req (Some (JObj []))))
  /\ (forall now t n,
        Req.name (Req.body req) = Some n ->
        exists t' id r,
          post_items JSON_parse now t req = (t', Merged id blob)
          /\ Items.find t' id = Some r
          /\ Items.data r = JObj blob).
Proof.
  intros Hd Hs blob.
  assert (Hnew : newImages req = map path_for (attached req)).
  { unfold newImages, attached. destruct (Req.files req); reflexivity. }
  assert (Hf : try_parse JSON_parse (Req.data (Req.body req)) = VObject []).
  { rewrite Hd. unfold try_parse. now rewrite Hs. }
  pose proof (processItemData_object req [] Hf) as Hp.
  cbn [lookup array_or_empty app assign String.eqb Ascii.eqb Bool.eqb] in Hp.
  cbn zeta in Hp. rewrite Hnew in Hp. fold blob in Hp.
  pose proof (processItemData_object (with_data req (Some (JObj []))) []
                eq_refl) as Hq.
  cbn [lookup array_or_empty app assign String.eqb Ascii.eqb Bool.eqb] in Hq.
  cbn zeta in Hq.
  change (newImages (with_data req (Some (JObj [])))) with (newImages req) in Hq.
  rewrite Hnew in Hq. fold blob in Hq.
  split; [exact Hp|]. split; [|split].
  - intros now t. unfold post_items. rewrite Hp, Hq. reflexivity.
  - intros t id. unfold put_item. rewrite Hp, Hq. reflexivity.
  - intros now t n Hn.
    rewrite (post_items_accepted now t _ _ n (JObj blob) Hp Hn eq_refl).
    eexists _, _, _. split; [reflexivity|].
    split; [apply find_insert|reflexivity].
Qed.

(** C6. When the payload is absent, null, or a string that decodes to null,
    [processItemData] throws on reading dataObj.imageUrls; the creation and
    the update fail and leave every row as it was. The empty object stands
    in for a string that does not decode only. *)
Theorem missing_payload_throws (req : Req.t) :
  Req.data (Req.body req) = None
  \/ Req.data (Req.body req) = Some JNull
  \/ (exists s, Req.data (Req.body req) = Some (JStr s)
                /\ JSON_parse s = Some JNull) ->
  processItemData JSON_parse req = Throw TypeError
  /\ (forall now t,
        post_items JSON_parse now t req = (t, Uncaught TypeError))
  /\ (forall t id,
        put_item JSON_parse t id req = (t, Uncaught TypeError)).
Proof.
  intros H.
  assert (Hp : processItemData JSON_parse req = Throw TypeError).
  { apply processItemData_throws.
    destruct H as [-> | [-> | (s & -> & Hs)]]; cbn; [reflexivity ..|].
    now rewrite Hs. }
  split; [exact Hp|]. split.
  - intros now t. unfold post_items. now rewrite Hp.
  - intros t id. unfold put_item. now rewrite Hp.
Qed.

(** C7, as amended. For an id that names no row, no update changes the
    table. An update whose payload [processItemData] merges into (an
    object or an array, sent as such or as a string, or a string that does
    not decode) answers with its usual success body, whether it names the
    item or not; an update with any other payload fails with the TypeError
    of [processItemData]. A deletion answers success and leaves the table
    as it was too. *)
Theorem absent_id_changes_nothing (t : Items.table) (id : Z) :
  Items.find t id = None ->
  (forall req, fst (put_item JSON_parse t id req) = t)
  /\ (forall req f,
        carries JSON_parse (Req.data (Req.body req)) f ->
        exists p,
          processItemData JSON_parse req = Normal p
          /\ put_item JSON_parse t id req
             = (t, Merged id (spread (dataObj p))))
  /\ (forall req,
        (forall f, ~ carries JSON_parse (Req.data (Req.body req)) f) ->
        put_item JSON_parse t id req = (t, Uncaught TypeError))
  /\ delete_item t id = (t, Success).
Proof.
  intros Habs.
  assert (Hnone : existsb (fun r => Items.id r =? id) (Items.rows t) = false).
  { apply not_true_is_false. intros H. apply existsb_exists in H.
    destruct H as (r & Hr & Hid). now rewrite (find_absent _ _ Habs r Hr) in Hid. }
  assert (Hret : forall req p,
             processItemData JSON_parse req = Normal p ->
             put_item JSON_parse t id req
             = (t, Merged id (spread (dataObj p)))).
  { intros req p Hp.
    destruct (processItemData_returns req p Hp) as [_ [d Hd]].
    unfold put_item. rewrite Hp. cbn [bind]. rewrite Hd. cbn [bind bind_json].
    destruct (Req.name (fields_of p)) as [n|]; cbn [Items.run_update bind].
    - now rewrite update_absent.
    - now rewrite Hnone. }
  split; [|split; [|split]].
  - intros req.
    destruct (put_item_refused t id req) as [H | (p & n & d & Hp & Hn & Hd)];
      [exact H|].
    now rewrite (Hret req p Hp).
  - intros req f Hc.
    destruct (carries_returns req f Hc) as (p & Hp).
    exists p. split; [exact Hp|]. now apply Hret.
  - intros req Hnot.
    destruct (props (try_parse JSON_parse (Req.data (Req.body req))))
      as [f|] eqn:E.
    + exfalso.
      destruct (try_parse JSON_parse (Req.data (Req.body req)))
        as [| | b | n | s | l named | g] eqn:Ht; try discriminate E.
      * destruct (returns_carries req _ (processItemData_array req l named Ht))
          as [f' Hf']. exact (Hnot f' Hf').
      * destruct (returns_carries req _ (processItemData_object req g Ht))
          as [f' Hf']. exact (Hnot f' Hf').
    + unfold put_item. now rewrite (processItemData_throws req E).
  - unfold delete_item. f_equal. now apply delete_absent.
Qed.


Lemma post_items_refused (now : Z) (t : Items.table) (req : Req.t) :
  fst (post_items JSON_parse now t req) = t
  \/ exists p n d,
      processItemData JSON_parse req = Normal p
      /\ Req.name (fields_of p) = Some n
      /\ JSON_stringify (dataObj p) = Some d.
Proof.
  unfold post_items.
  destruct (processItemData JSON_parse req) as [p|e] eqn:Hp; [|now left].
  cbn [bind].
  destruct (JSON_stringify (dataObj p)) as [d|] eqn:Hd; [|now left].
  cbn [bind bind_json].
  destruct (Req.name (fields_of p)) as [n|] eqn:Hn; [|now left].
  right. now exists p, n, d.
Qed.



Lemma find_in (t : Items.table) (i : Z) (r : Items.row) :
  Items.find t i = Some r -> In r (Items.rows t) /\ Items.id r = i.
Proof.
  unfold Items.find. intros H. apply find_some in H.
  destruct H as [H1 H2]. split; [exact H1|]. now apply Z.eqb_eq.
Qed.

(** C4, as amended. A creation or an update whose payload is an object
    (given as one, decoded from a string, or standing in for a string that
    does not decode) and which names its item stores a blob whose imageUrls
    is an array and whose imageUrl is the first element of that array, or
    null when the array is empty. *)
Theorem object_payload_stores_consistent_images
  (req : Req.t) (f : list (string * json)) (n : string) :
  try_parse JSON_parse (Req.data (Req.body req)) = VObject f ->
  Req.name (Req.body req) = Some n ->
  (forall now t,
     exists t' id props r,
       post_items JSON_parse now t req = (t', Merged id props)
       /\ Items.find t' id = Some r
       /\ images_consistent (Items.data r))
  /\ (forall t id r0,
        Items.find t id = Some r0 ->
        exists r,
          Items.find (fst (put_item JSON_parse t id req)) id = Some r
          /\ images_consistent (Items.data r)).
Proof.
  intros Hf Hn.
  pose proof (processItemData_object req f Hf) as Hp. cbn zeta in Hp.
  assert (Hok : images_consistent
                  (JObj (assign "imageUrl"
                           (cover (array_or_empty (lookup "imageUrls" f)
                                   ++ newImages req))
                           (assign "imageUrls"
                              (JArr (array_or_empty (lookup "imageUrls" f)
                                     ++ newImages req)) f)))).
  { eexists. split; image_fields; reflexivity. }
  split.
  - intros now t.
    rewrite (post_items_accepted now t _ _ n _ Hp Hn eq_refl).
    eexists _, _, _, _. split; [reflexivity|].
    split; [apply find_insert|exact Hok].
  - intros t id r0 Hr0.
    rewrite (put_item_accepted _ _ _ _ n _ Hp Hn eq_refl). cbn [fst].
    eexists. split; [apply (find_update _ _ _ _ _ _ _ _ _ Hr0)|exact Hok].
Qed.


(** *** Sorting *)

Lemma insert_by_perm {A : Type} (before : A -> A -> bool) (x : A)
  (l : list A) :
  Permutation (x :: l) (insert_by before x l).
Proof.
  induction l as [|y l IH]; simpl; [reflexivity|].
  destruct (before y x); [|reflexivity].
  rewrite perm_swap. now constructor.
Qed.

Lemma sort_by_perm {A : Type} (before : A -> A -> bool) (l : list A) :
  Permutation l (sort_by before l).
Proof.
  induction l as [|x l IH]; simpl; [constructor|].
  rewrite <- insert_by_perm. now constructor.
Qed.

Section Sorted_by.

Context {A : Type} (before : A -> A -> bool) (R : A -> A -> Prop).
Hypothesis before_R : forall a b, before a b = true -> R a b.
Hypothesis not_before_R : forall a b, before a b = false -> R b a.

Lemma insert_by_hd (y x : A) (l : list A) :
  HdRel R y l -> R y x -> HdRel R y (insert_by before x l).
Proof.
  intros Hl Hx. destruct l as [|z l]; simpl; [now constructor|].
  destruct (before z x); constructor; [|exact Hx].
  now inversion Hl.
Qed.

Lemma insert_by_sorted (x : A) (l : list A) :
  Sorted R l -> Sorted R (insert_by before x l).
Proof.
  induction 1 as [|y l Hs IH Hhd]; simpl; [repeat constructor|].
  destruct (before y x) eqn:E.
  - constructor; [exact IH|]. apply insert_by_hd; auto.
  - constructor; [now constructor|]. constructor. now apply not_before_R.
Qed.

Lemma sort_by_sorted (l : list A) : Sorted R (sort_by before l).
Proof.
  induction l as [|x l IH]; simpl; [constructor|].
  now apply insert_by_sorted.
Qed.

End Sorted_by.

Lemma order_by_created_at_desc_perm (l : list Items.row) :
  Permutation l (Items.order_by_created_at_desc l).
Proof. apply sort_by_perm. Qed.

Lemma order_by_created_at_desc_sorted (l : list Items.row) :
  newest_first (Items.order_by_created_at_desc l).
Proof.
  unfold newest_first. apply Sorted_StronglySorted.
  - intros a b c Hab Hbc. lia.
  - apply sort_by_sorted; intros a b H.
    + apply Z.ltb_lt in H. lia.
    + apply Z.ltb_ge in H. lia.
Qed.

(** The listing of the earlier version is the later one without a
    parameter. *)
Lemma get_items_unfiltered_eq (t : Items.table) :
  get_items_unfiltered t = get_items t None.
Proof. reflexivity. Qed.

(** C9, as amended. With a category parameter that is not the empty string
    the listing holds exactly the rows of that category; with no parameter,
    or with an empty one, it holds every row; either way the rows come
    newest first. *)
Theorem get_items_filters_and_orders (t : Items.table) :
  (forall c, c <> "" ->
     exists l,
       get_items t (Some c) = Listed (map view l)
       /\ Permutation l (filter (Items.category_is c) (Items.rows t))
       /\ (forall r, In r l <->
                     In r (Items.rows t) /\ Items.category r = Some c)
       /\ newest_first l)
  /\ (forall q, q = None \/ q = Some "" ->
        exists l,
          get_items t q = Listed (map view l)
          /\ Permutation l (Items.rows t)
          /\ newest_first l).
Proof.
  split.
  - intros c Hc.
    exists (Items.order_by_created_at_desc
              (filter (Items.category_is c) (Items.rows t))).
    assert (Hp := order_by_created_at_desc_perm
                    (filter (Items.category_is c) (Items.rows t))).
    split; [|split; [|split]].
    + unfold get_items. cbn [truthy_string].
      apply String.eqb_neq in Hc. now rewrite Hc.
    + now symmetry.
    + intros r. rewrite <- (Permutation_in' eq_refl Hp), filter_In.
      unfold Items.category_is.
      destruct (Items.category r) as [c'|].
      * rewrite String.eqb_eq. split; intros [H1 H2]; split; congruence.
      * split; intros [H1 H2]; discriminate.
    + apply order_by_created_at_desc_sorted.
  - intros q Hq. exists (Items.order_by_created_at_desc (Items.rows t)).
    split; [|split].
    + destruct Hq as [-> | ->]; reflexivity.
    + symmetry. apply order_by_created_at_desc_perm.
    + apply order_by_created_at_desc_sorted.
Qed.

(** *** The sets of the metadata route *)



Lemma same_value_zero_refl (a : json) :
  primitive a = true -> same_value_zero a a = true.
Proof.
  destruct a; cbn; try discriminate; intros _.
  - reflexivity.
  - apply Bool.eqb_reflx.
  - apply Z.eqb_refl.
  - apply String.eqb_refl.
Qed.


Lemma set_add_nodup (s : list json) (x : json) :
  primitive x = true -> NoDup s -> NoDup (set_add s x).
Proof.
  intros Hx Hs. unfold set_add.
  destruct (existsb (same_value_zero x) s) eqn:E; [exact Hs|].
  apply NoDup_app; [exact Hs | repeat constructor; intros [] |].
  intros y Hy [Heq | []]. subst y.
  assert (H : existsb (same_value_zero x) s = true).
  { apply existsb_exists. exists x. split; [exact Hy|].
    now apply same_value_zero_refl. }
  congruence.
Qed.















End Properties.

(** ** The properties on the sample requests *)

(** The shelf is one request away from the empty table. *)
Lemma shelf_reachable : reachable Json_text.parse shelf.
Proof.
  exact (reachable_handle Json_text.parse 100 Items.empty
           (POST_items create_robot) (reachable_empty Json_text.parse)).
Qed.

(** Its one row is the robot, with its two pictures. *)
Lemma shelf_holds_robot : Items.find shelf 1 = Some robot_row.
Proof. reflexivity. Qed.

(** C1. The toggle stores the truthiness of [req.body.owned]: with the
    body {owned: the text false} the robot, which was not owned, is stored
    as owned, while the update route stores 0 for the same value. *)
Theorem toggle_stores_truthiness_of_owned :
  option_map Items.owned (Items.find shelf 1) = Some 0
  /\ option_map Items.owned
       (Items.find (fst (post_toggle shelf 1 (Some (JStr "false")))) 1)
     = Some 1
  /\ option_map Items.owned
       (Items.find (fst (put_item Json_text.parse shelf 1 disown)) 1)
     = Some 0.
Proof. repeat split. Qed.

(** The picture sent back comes first, the two new ones after it in the
    order they came, and the cover is the picture sent back, not the one
    the payload named. *)
Lemma merged_images_echo_then_uploads_restock :
  carries Json_text.parse (Req.data (Req.body restock))
    [("imageUrl", JStr "/uploads/mine.png"); ("imageUrls", JArr [old_png])]
  /\ echoes
       [("imageUrl", JStr "/uploads/mine.png"); ("imageUrls", JArr [old_png])]
       [old_png]
  /\ exists p f',
      processItemData Json_text.parse restock = Normal p
      /\ props (dataObj p) = Some f'
      /\ has_field f' "imageUrls"
           (JArr [old_png; JStr "/uploads/1700000000001-11.png";
                  JStr "/uploads/1700000000002-22.png"])
      /\ has_field f' "imageUrl" old_png.
Proof.
  assert (Hc : carries Json_text.parse (Req.data (Req.body restock))
                 [("imageUrl", JStr "/uploads/mine.png");
                  ("imageUrls", JArr [old_png])])
    by (left; constructor).
  assert (He : echoes
                 [("imageUrl", JStr "/uploads/mine.png");
                  ("imageUrls", JArr [old_png])] [old_png]).
  { apply echoes_array. apply has_field_later; [discriminate|].
    apply has_field_here. }
  split; [exact Hc|]. split; [exact He|].
  exact (merged_images_echo_then_uploads Json_text.parse restock _ _ Hc He).
Defined.

(** The two pictures of the robot, sent with an empty blob, come out in
    the order they came in, the first one as the cover. *)
Example two_uploads_in_order :
  processItemData Json_text.parse create_robot
  = Normal {| fields_of := Req.body create_robot;
              dataObj :=
                VObject [("imageUrls",
                          JArr [JStr "/uploads/1700000000001-11.png";
                                JStr "/uploads/1700000000002-22.png"]);
                         ("imageUrl", JStr "/uploads/1700000000001-11.png")] |}.
Proof. reflexivity. Qed.

(** Renaming the brand of the robot without sending its pictures back
    loses both of them. *)
Lemma update_without_images_drops_robot_pictures :
  Items.find shelf 1 = Some robot_row
  /\ field (Items.data robot_row) "imageUrls"
     = Some (JArr [path_for a_png; path_for b_png])
  /\ sends_object Json_text.parse (Req.data (Req.body rebrand))
       [("brand", JStr "Acme")]
  /\ exists r' f',
      Items.find (fst (put_item Json_text.parse shelf 1 rebrand)) 1 = Some r'
      /\ Items.data r' = JObj f'
      /\ has_field f' "imageUrls" (JArr [])
      /\ has_field f' "imageUrl" JNull.
Proof.
  assert (Hs : sends_object Json_text.parse (Req.data (Req.body rebrand))
                 [("brand", JStr "Acme")]) by constructor.
  assert (Hn : forall v, ~ has_field [("brand", JStr "Acme")] "imageUrls" v).
  { intros v H. apply has_field_lookup in H. discriminate H. }
  split; [reflexivity|]. split; [reflexivity|]. split; [exact Hs|].
  exact (update_without_images_drops_them Json_text.parse shelf 1 robot_row
           rebrand [("brand", JStr "Acme")] "Robot"
           eq_refl Hs Hn (or_introl eq_refl) eq_refl).
Defined.

(** An update whose payload is the empty array, which has no imageUrls
    either, stores that array: the blob of the robot has no imageUrls
    field afterwards. *)
Lemma array_update_stores_no_image_fields :
  Req.data (Req.body listed_blob) = Some (JArr [])
  /\ Req.files listed_blob = None
  /\ Items.find shelf 1 = Some robot_row
  /\ snd (put_item Json_text.parse shelf 1 listed_blob)
     = Merged 1 [("imageUrls", JArr []); ("imageUrl", JNull)]
  /\ option_map Items.data
       (Items.find (fst (put_item Json_text.parse shelf 1 listed_blob)) 1)
     = Some (JArr [])
  /\ field (JArr []) "imageUrls" = None.
Proof. repeat split. Qed.

(** An array blob is stored as it came, without the image fields. *)
Lemma array_payload_stores_no_image_fields :
  snd (post_items Json_text.parse 100 Items.empty listed_blob)
  = Merged 1 [("imageUrls", JArr []); ("imageUrl", JNull)]
  /\ option_map Items.data
       (Items.find (fst (post_items Json_text.parse 100 Items.empty listed_blob)) 1)
     = Some (JArr [])
  /\ field (JArr []) "imageUrls" = None.
Proof. repeat split. Qed.

(** The empty object of the robot form is stored with both image fields. *)
Lemma object_payload_stores_consistent_images_robot :
  try_parse Json_text.parse (Req.data (Req.body create_robot)) = VObject []
  /\ Req.name (Req.body create_robot) = Some "Robot"
  /\ (forall now t,
        exists t' id props r,
          post_items Json_text.parse now t create_robot = (t', Merged id props)
          /\ Items.find t' id = Some r
          /\ images_consistent (Items.data r))
  /\ (forall t id r0,
        Items.find t id = Some r0 ->
        exists r,
          Items.find (fst (put_item Json_text.parse t id create_robot)) id
          = Some r
          /\ images_consistent (Items.data r)).
Proof.
  split; [reflexivity|]. split; [reflexivity|].
  exact (object_payload_stores_consistent_images Json_text.parse create_robot
           [] "Robot" eq_refl eq_refl).
Defined.

(** The text {oops is no JSON: the item is created with the one picture
    sent along. *)
Lemma undecodable_payload_garbled :
  Req.data (Req.body garbled) = Some (JStr "{oops")
  /\ Json_text.parse "{oops" = None
  /\ processItemData Json_text.parse garbled
     = Normal {| fields_of := Req.body garbled;
                 dataObj :=
                   VObject [("imageUrls", JArr [path_for a_png]);
                            ("imageUrl", path_for a_png)] |}
  /\ (forall now t,
        post_items Json_text.parse now t garbled
        = post_items Json_text.parse now t (with_data garbled (Some (JObj []))))
  /\ (forall t id,
        put_item Json_text.parse t id garbled
        = put_item Json_text.parse t id (with_data garbled (Some (JObj []))))
  /\ (forall now t n,
        Req.name (Req.body garbled) = Some n ->
        exists t' id r,
          post_items Json_text.parse now t garbled
          = (t', Merged id [("imageUrls", JArr [path_for a_png]);
                            ("imageUrl", path_for a_png)])
          /\ Items.find t' id = Some r
          /\ Items.data r = JObj [("imageUrls", JArr [path_for a_png]);
                                  ("imageUrl", path_for a_png)]).
Proof.
  split; [reflexivity|]. split; [reflexivity|].
  exact (undecodable_payload_is_empty_object Json_text.parse garbled "{oops"
           eq_refl eq_refl).
Defined.

(** A form without a blob fails in [processItemData]. *)
Lemma missing_payload_blobless :
  Req.data (Req.body blobless) = None
  /\ processItemData Json_text.parse blobless = Throw TypeError
  /\ (forall now t,
        post_items Json_text.parse now t blobless = (t, Uncaught TypeError))
  /\ (forall t id,
        put_item Json_text.parse t id blobless = (t, Uncaught TypeError)).
Proof.
  split; [reflexivity|].
  exact (missing_payload_throws Json_text.parse blobless (or_introl eq_refl)).
Defined.

(** So does one whose blob is the text null. *)
Example null_text_throws :
  Json_text.parse "null" = Some JNull
  /\ post_items Json_text.parse 100 shelf null_text
     = (shelf, Uncaught TypeError).
Proof. split; reflexivity. Qed.

(** No row of the shelf has the id 7. *)
Lemma absent_id_seven :
  Items.find shelf 7 = None
  /\ (forall req, fst (put_item Json_text.parse shelf 7 req) = shelf)
  /\ (forall req f,
        carries Json_text.parse (Req.data (Req.body req)) f ->
        exists p,
          processItemData Json_text.parse req = Normal p
          /\ put_item Json_text.parse shelf 7 req
             = (shelf, Merged 7 (spread (dataObj p))))
  /\ (forall req,
        (forall f, ~ carries Json_text.parse (Req.data (Req.body req)) f) ->
        put_item Json_text.parse shelf 7 req = (shelf, Uncaught TypeError))
  /\ delete_item shelf 7 = (shelf, Success).
Proof.
  split; [reflexivity|].
  exact (absent_id_changes_nothing Json_text.parse shelf 7 eq_refl).
Defined.

(** An update of the missing row 7 answers with the merged blob. *)
Example update_absent_id_answers :
  put_item Json_text.parse shelf 7 rebrand
  = (shelf, Merged 7 [("brand", JStr "Acme"); ("imageUrls", JArr []);
                      ("imageUrl", JNull)]).
Proof. reflexivity. Qed.

(** An update of the missing row 7 that has no payload fails, like any
    update without one. *)
Lemma update_without_payload_fails :
  Items.find shelf 7 = None
  /\ Req.data (Req.body blobless) = None
  /\ put_item Json_text.parse shelf 7 blobless = (shelf, Uncaught TypeError).
Proof. repeat split. Qed.

(** An update without a name succeeds on the missing row 7 and fails on
    the robot, whose name it would set to NULL. *)
Example nameless_update :
  put_item Json_text.parse shelf 7 nameless
  = (shelf, Merged 7 [("imageUrls", JArr []); ("imageUrl", JNull)])
  /\ put_item Json_text.parse shelf 1 nameless = (shelf, Uncaught SqliteError)
  /\ post_items Json_text.parse 100 shelf nameless
     = (shelf, Uncaught SqliteError).
Proof. repeat split. Qed.


(** An empty category parameter lists the robot, a toy. *)
Lemma empty_category_lists_every_row :
  get_items shelf (Some "") = Listed [view robot_row]
  /\ Items.category robot_row = Some "Toy"
  /\ Items.category robot_row <> Some "".
Proof. repeat split. discriminate. Qed.

(** Three games created at seconds 10, 20 and 30 are listed in the
    reverse order; no toy is listed among them. *)
Example games_newest_first :
  get_items three_games (Some "Game")
  = Listed (map view (rev (Items.rows three_games)))
  /\ map (fun r => (Items.name r, Items.created_at r, Items.owned r))
       (rev (Items.rows three_games))
     = [("Z", 30, 1); ("Y", 20, 1); ("X", 10, 1)]
  /\ get_items three_games (Some "Toy") = Listed [].
Proof. repeat split. Qed.



(** Two rows whose brand is an empty object: the set holds both. *)
Example object_brand_listed_per_row :
  get_metadata two_boxes
  = Metadata [JStr "General"] [JObj []; JObj []] [] [] [].
Proof. reflexivity. Qed.

(** Two items of Shelf B and one of Shelf A: each shelf once, in order. *)
Example shared_collection_listed_once :
  get_metadata three_games
  = Metadata [JStr "Shelf A"; JStr "Shelf B"] [] [] [] [].
Proof. reflexivity. Qed.

(** ** Further properties of the routes *)

Section Further.

Variable JSON_parse : string -> option json.

(** *** Row ids *)

(** What an answered creation did to the table. *)
Lemma post_items_answered (now : Z) (t t1 : Items.table) (req : Req.t)
  (i : Z) (props : list (string * json)) :
  post_items JSON_parse now t req = (t1, Merged i props) ->
  exists r,
    Items.rows t1 = Items.rows t ++ [r]
    /\ Items.id r = i
    /\ Items.created_at r = now
    /\ Items.seq t1 = i
    /\ i = Z.max (Items.seq t) (Items.max_id (Items.rows t)) + 1.
Proof.
  unfold post_items.
  destruct (processItemData JSON_parse req) as [p|e]; cbn [bind];
    [|discriminate].
  destruct (JSON_stringify (dataObj p)) as [d|]; cbn [bind bind_json];
    [|discriminate].
  destruct (Req.name (fields_of p)) as [n|]; cbn [bind Items.run_insert];
    [|discriminate].
  unfold Items.insert. intros [= <- <- _]. cbn [Items.rows Items.seq].
  eexists. split; [reflexivity|]. cbn. auto.
Qed.

Lemma handle_seq (now : Z) (t : Items.table) (c : call) :
  Items.seq t <= Items.seq (fst (handle JSON_parse now t c)).
Proof.
  destruct c as [q | | req | i req | i o | i]; cbn [handle fst]; try lia.
  - destruct (post_items_refused JSON_parse now t req)
      as [-> | (p & n & d & Hp & Hn & Hd)]; [lia|].
    rewrite (post_items_accepted _ _ _ _ _ _ _ Hp Hn Hd). cbn. lia.
  - destruct (put_item_refused JSON_parse t i req)
      as [-> | (p & n & d & Hp & Hn & Hd)]; [lia|].
    rewrite (put_item_accepted _ _ _ _ _ _ _ Hp Hn Hd). cbn. lia.
  - cbn. lia.
  - cbn. lia.
Qed.

Lemma run_seq (trace : list (Z * call)) (t : Items.table) :
  Items.seq t <= Items.seq (run JSON_parse trace t).
Proof.
  revert t. induction trace as [|[now c] trace IH]; intros t; cbn; [lia|].
  etransitivity; [apply (handle_seq now t c)|apply IH].
Qed.

(** The row a creation adds, when it adds one. *)
Lemma post_items_added (now : Z) (t : Items.table) (req : Req.t)
  (r : Items.row) :
  Items.rows (fst (post_items JSON_parse now t req)) = Items.rows t ++ [r] ->
  Items.id r = Z.max (Items.seq t) (Items.max_id (Items.rows t)) + 1
  /\ Items.seq (fst (post_items JSON_parse now t req)) = Items.id r.
Proof.
  destruct (post_items_refused JSON_parse now t req)
    as [-> | (p & n & d & Hp & Hn & Hd)].
  - intros H. exfalso.
    apply (f_equal (@List.length Items.row)) in H.
    rewrite length_app in H. cbn in H. lia.
  - rewrite (post_items_accepted _ _ _ _ _ _ _ Hp Hn Hd).
    unfold Items.insert. cbv zeta. cbn [fst Items.rows Items.seq].
    intros H. apply app_inv_head in H. injection H as <-. now cbn.
Qed.

(** X1. The row a creation adds gets an id larger than the id of every
    row of the table, and every row added by a later creation, whatever
    was requested in between (deletions too), gets a larger id still: an
    id is never given twice. *)
Theorem created_ids_increase (now : Z) (t : Items.table) (req : Req.t)
  (r : Items.row) :
  Items.rows (fst (post_items JSON_parse now t req)) = Items.rows t ++ [r] ->
  (forall x, In x (Items.rows t) -> Items.id x < Items.id r)
  /\ forall trace now' req' r',
       Items.rows
         (fst (post_items JSON_parse now'
                 (run JSON_parse trace (fst (post_items JSON_parse now t req)))
                 req'))
       = Items.rows
           (run JSON_parse trace (fst (post_items JSON_parse now t req)))
         ++ [r'] ->
       Items.id r < Items.id r'.
Proof.
  intros H. destruct (post_items_added _ _ _ _ H) as [Hi Hseq].
  split.
  - intros x Hx. apply max_id_bound in Hx. lia.
  - intros trace now' req' r' H'.
    destruct (post_items_added _ _ _ _ H') as [Hj _].
    pose proof (run_seq trace (fst (post_items JSON_parse now t req))). lia.
Qed.

Lemma max_id_nonneg (l : list Items.row) : 0 <= Items.max_id l.
Proof.
  unfold Items.max_id. induction l as [|x l IH]; cbn [fold_right]; lia.
Qed.

Lemma ids_of_filter_distinct (keep : Items.row -> bool)
  (rows : list Items.row) :
  NoDup (map Items.id rows) -> NoDup (map Items.id (filter keep rows)).
Proof.
  intros Hnd. induction rows as [|x rows IH]; cbn; [constructor|].
  cbn in Hnd. apply NoDup_cons_iff in Hnd. destruct Hnd as [Hx Hrest].
  destruct (keep x); cbn; [|now apply IH].
  apply NoDup_cons_iff. split; [|now apply IH].
  rewrite in_map_iff. intros (r & Hid & Hr).
  apply filter_In in Hr. apply Hx. rewrite in_map_iff. exists r. tauto.
Qed.

Lemma handle_ids_ok (now : Z) (t : Items.table) (c : call) :
  ids_ok t -> ids_ok (fst (handle JSON_parse now t c)).
Proof.
  intros [Hnd Hb].
  assert (Hmap : forall g : Items.row -> Items.row,
             (forall r, Items.id (g r) = Items.id r) ->
             ids_ok {| Items.rows := map g (Items.rows t);
                       Items.seq := Items.seq t |}).
  { intros g Hg. split; cbn [Items.rows Items.seq].
    - rewrite map_map. rewrite (map_ext _ Items.id) by exact Hg. exact Hnd.
    - intros r Hr. apply in_map_iff in Hr. destruct Hr as (x & <- & Hx).
      rewrite Hg. now apply Hb. }
  destruct c as [q | | req | i req | i o | i]; cbn [handle fst];
    try (now split).
  - destruct (post_items_refused JSON_parse now t req)
      as [-> | (p & n & d & Hp & Hn & Hd)]; [now split|].
    rewrite (post_items_accepted _ _ _ _ _ _ _ Hp Hn Hd).
    unfold Items.insert. cbv zeta. cbn [fst].
    split; cbn [Items.rows Items.seq].
    + rewrite map_app. cbn [map Items.id]. apply NoDup_app.
      * exact Hnd.
      * repeat constructor. intros [].
      * intros x Hx [<- | []]. apply in_map_iff in Hx.
        destruct Hx as (r & Hr1 & Hr2). apply Hb in Hr2. lia.
    + intros r Hr. apply in_app_or in Hr. destruct Hr as [Hr | [<- | []]].
      * apply Hb in Hr. lia.
      * cbn [Items.id]. pose proof (Z.le_max_l (Items.seq t)
                                     (Items.max_id (Items.rows t))).
        pose proof (max_id_nonneg (Items.rows t)). lia.
  - destruct (put_item_refused JSON_parse t i req)
      as [-> | (p & n & d & Hp & Hn & Hd)]; [now split|].
    rewrite (put_item_accepted _ _ _ _ _ _ _ Hp Hn Hd). cbn [fst].
    apply Hmap. intros r. now destruct (Items.id r =? i).
  - apply Hmap. intros r. now destruct (Items.id r =? i).
  - unfold delete_item, Items.delete. cbn [fst]. split;
      cbn [Items.rows Items.seq].
    + now apply ids_of_filter_distinct.
    + intros r Hr. apply filter_In in Hr. now apply Hb.
Qed.

(** X2. In every table the server can hold, no two rows have the same
    id, and every id is positive and at most the counter of the table. *)
Theorem reachable_ids_distinct (t : Items.table) :
  reachable JSON_parse t ->
  NoDup (map Items.id (Items.rows t))
  /\ forall r, In r (Items.rows t) -> 0 < Items.id r <= Items.seq t.
Proof.
  induction 1 as [|now t c _ IH].
  - split; [constructor | intros r []].
  - now apply handle_ids_ok.
Qed.

(** *** The owned column *)

Lemma or_default_nonempty (o : option string) (d : string) :
  d <> "" -> or_default o d <> "".
Proof.
  intros Hd. unfold or_default. destruct o as [s|]; [|exact Hd].
  destruct (String.eqb s "") eqn:E; [exact Hd|]. now apply String.eqb_neq.
Qed.

Lemma handle_owned_flag (now : Z) (t : Items.table) (c : call) :
  (forall r, In r (Items.rows t) -> Items.owned r = 0 \/ Items.owned r = 1) ->
  forall r, In r (Items.rows (fst (handle JSON_parse now t c))) ->
            Items.owned r = 0 \/ Items.owned r = 1.
Proof.
  intros Ht. destruct c as [q | | req | i req | i o | i]; cbn [handle fst];
    try exact Ht.
  - destruct (post_items_refused JSON_parse now t req)
      as [-> | (p & n & d & Hp & Hn & Hd)]; [exact Ht|].
    rewrite (post_items_accepted _ _ _ _ _ _ _ Hp Hn Hd).
    unfold Items.insert. cbv zeta. cbn [fst Items.rows].
    intros r Hr. apply in_app_or in Hr. destruct Hr as [Hr | [<- | []]];
      [now apply Ht|]. cbn [Items.owned].
    destruct (strict_eq_string _ "true" || strict_eq_true _); auto.
  - destruct (put_item_refused JSON_parse t i req)
      as [-> | (p & n & d & Hp & Hn & Hd)]; [exact Ht|].
    rewrite (put_item_accepted _ _ _ _ _ _ _ Hp Hn Hd).
    unfold Items.update. cbn [fst Items.rows].
    intros r Hr. apply in_map_iff in Hr. destruct Hr as (x & <- & Hx).
    destruct (Items.id x =? i); [|now apply Ht]. cbn [Items.owned].
    destruct (strict_eq_string _ "true" || strict_eq_true _); auto.
  - unfold post_toggle, Items.update_owned. cbn [fst Items.rows].
    intros r Hr. apply in_map_iff in Hr. destruct Hr as (x & <- & Hx).
    destruct (Items.id x =? i); [|now apply Ht]. cbn [Items.owned].
    destruct (truthy o); auto.
  - unfold delete_item, Items.delete. cbn [fst Items.rows].
    intros r Hr. apply filter_In in Hr. now apply Ht.
Qed.

(** X3. In every table the server can hold, the owned column of each row
    is 0 or 1. *)
Theorem reachable_owned_is_flag (t : Items.table) :
  reachable JSON_parse t ->
  forall r, In r (Items.rows t) -> Items.owned r = 0 \/ Items.owned r = 1.
Proof.
  induction 1 as [|now t c _ IH].
  - intros r [].
  - now apply handle_owned_flag.
Qed.

(** *** What the writes keep *)

(** X4. An update and a toggle, accepted or not, leave the rows of the
    table in place, each with its id and its creation time, and leave the
    id counter alone: they add no row, drop none and renumber none. *)
Theorem updates_keep_rows_and_times (t : Items.table) (i : Z) :
  (forall req,
     map identity (Items.rows (fst (put_item JSON_parse t i req)))
     = map identity (Items.rows t)
     /\ Items.seq (fst (put_item JSON_parse t i req)) = Items.seq t)
  /\ (forall o,
        map identity (Items.rows (fst (post_toggle t i o)))
        = map identity (Items.rows t)
        /\ Items.seq (fst (post_toggle t i o)) = Items.seq t).
Proof.
  split.
  - intros req.
    destruct (put_item_refused JSON_parse t i req)
      as [-> | (p & n & d & Hp & Hn & Hd)]; [now split|].
    rewrite (put_item_accepted _ _ _ _ _ _ _ Hp Hn Hd).
    unfold Items.update. cbn [fst Items.rows Items.seq].
    split; [|reflexivity]. rewrite map_map. apply map_ext.
    intros r. now destruct (Items.id r =? i).
  - intros o. unfold post_toggle, Items.update_owned.
    cbn [fst Items.rows Items.seq].
    split; [|reflexivity]. rewrite map_map. apply map_ext.
    intros r. now destruct (Items.id r =? i).
Qed.

Lemma find_map_other (g : Items.row -> Items.row) (l : list Items.row)
  (i j : Z) :
  j <> i ->
  (forall r, Items.id (g r) = Items.id r) ->
  (forall r, (Items.id r =? i) = false -> g r = r) ->
  List.find (fun r => Items.id r =? j) (map g l)
  = List.find (fun r => Items.id r =? j) l.
Proof.
  intros Hji Hid Hg. induction l as [|x l IH]; cbn; [reflexivity|].
  rewrite Hid. destruct (Items.id x =? j) eqn:E; [|exact IH].
  rewrite Hg; [reflexivity|]. apply Z.eqb_eq in E. apply Z.eqb_neq. lia.
Qed.

Lemma find_filter_other (l : list Items.row) (i j : Z) :
  j <> i ->
  List.find (fun r => Items.id r =? j)
    (filter (fun r => negb (Items.id r =? i)) l)
  = List.find (fun r => Items.id r =? j) l.
Proof.
  intros Hji. induction l as [|x l IH]; cbn; [reflexivity|].
  destruct (Items.id x =? i) eqn:Ei; cbn.
  - apply Z.eqb_eq in Ei. rewrite IH.
    destruct (Items.id x =? j) eqn:Ej; [|reflexivity].
    apply Z.eqb_eq in Ej. lia.
  - destruct (Items.id x =? j); [reflexivity|exact IH].
Qed.

Lemma find_app_other (l : list Items.row) (x : Items.row) (j : Z) :
  Items.id x <> j ->
  List.find (fun r => Items.id r =? j) (l ++ [x])
  = List.find (fun r => Items.id r =? j) l.
Proof.
  intros Hx. induction l as [|y l IH]; cbn.
  - apply Z.eqb_neq in Hx. now rewrite Hx.
  - destruct (Items.id y =? j); [reflexivity|exact IH].
Qed.

(** X5. A write addressed to one id leaves the row of every other id as it
    was: this for an update, a toggle and a deletion of id [i], and for a
    creation that answers with the id [i]. *)
Theorem writes_leave_other_rows (t : Items.table) (i j : Z) :
  j <> i ->
  (forall req, Items.find (fst (put_item JSON_parse t i req)) j
               = Items.find t j)
  /\ (forall o, Items.find (fst (post_toggle t i o)) j = Items.find t j)
  /\ Items.find (fst (delete_item t i)) j = Items.find t j
  /\ (forall now req t1 props,
        post_items JSON_parse now t req = (t1, Merged i props) ->
        Items.find t1 j = Items.find t j).
Proof.
  intros Hji. split; [|split; [|split]].
  - intros req.
    destruct (put_item_refused JSON_parse t i req)
      as [-> | (p & n & d & Hp & Hn & Hd)]; [reflexivity|].
    rewrite (put_item_accepted _ _ _ _ _ _ _ Hp Hn Hd).
    unfold Items.find, Items.update. cbn [fst Items.rows].
    apply (find_map_other _ _ i j); [exact Hji| |]; intros r.
    + now destruct (Items.id r =? i).
    + now intros ->.
  - intros o. unfold Items.find, post_toggle, Items.update_owned.
    cbn [fst Items.rows].
    apply (find_map_other _ _ i j); [exact Hji| |]; intros r.
    + now destruct (Items.id r =? i).
    + now intros ->.
  - unfold Items.find, delete_item, Items.delete. cbn [fst Items.rows].
    now apply find_filter_other.
  - intros now req t1 props H.
    destruct (post_items_answered _ _ _ _ _ _ H) as (r & Hrows & Hid & _).
    unfold Items.find. rewrite Hrows. apply find_app_other. lia.
Qed.

Lemma find_delete (t : Items.table) (i : Z) :
  Items.find (Items.delete t i) i = None.
Proof.
  unfold Items.find, Items.delete. cbn [Items.rows].
  induction (Items.rows t) as [|x l IH]; cbn; [reflexivity|].
  destruct (Items.id x =? i) eqn:E; cbn; [exact IH|]. now rewrite E.
Qed.

Lemma update_owned_absent (t : Items.table) (own i : Z) :
  Items.find t i = None -> Items.update_owned t own i = t.
Proof.
  intros H. destruct t as [rows seq]. unfold Items.update_owned. cbn.
  f_equal. apply map_unchanged. intros x Hx.
  now rewrite (find_absent _ _ H x Hx).
Qed.

(** X6. After a deletion the id names no row, and no update or toggle of
    that id brings one back: each leaves the table as the deletion left
    it. *)
Theorem deleted_item_stays_gone (t : Items.table) (i : Z) :
  let t' := fst (delete_item t i) in
  Items.find t' i = None
  /\ (forall req, fst (put_item JSON_parse t' i req) = t')
  /\ (forall o, fst (post_toggle t' i o) = t').
Proof.
  cbn zeta. unfold delete_item. cbn [fst].
  pose proof (find_delete t i) as Hgone.
  split; [exact Hgone|]. split.
  - intros req.
    destruct (put_item_refused JSON_parse (Items.delete t i) i req)
      as [H | (p & n & d & Hp & Hn & Hd)]; [exact H|].
    rewrite (put_item_accepted _ _ _ _ _ _ _ Hp Hn Hd). cbn [fst].
    now apply update_absent.
  - intros o. unfold post_toggle. cbn [fst]. now apply update_owned_absent.
Qed.

(** X7. Sending an update, a toggle or a deletion a second time changes
    nothing more: the table and the answer are those of the first time. *)
Theorem repeated_write_is_idempotent (t : Items.table) (i : Z) :
  (forall req,
     put_item JSON_parse (fst (put_item JSON_parse t i req)) i req
     = put_item JSON_parse t i req)
  /\ (forall o,
        post_toggle (fst (post_toggle t i o)) i o = post_toggle t i o)
  /\ delete_item (fst (delete_item t i)) i = delete_item t i.
Proof.
  split; [|split].
  - intros req.
    destruct (put_item_refused JSON_parse t i req)
      as [H | (p & n & d & Hp & Hn & Hd)]; [now rewrite H|].
    rewrite (put_item_accepted _ t _ _ _ _ _ Hp Hn Hd). cbn [fst].
    rewrite (put_item_accepted _ _ _ _ _ _ _ Hp Hn Hd). f_equal.
    unfold Items.update. cbn [Items.rows Items.seq]. f_equal.
    rewrite map_map. apply map_ext. intros r.
    destruct (Items.id r =? i) eqn:E; cbn [Items.id Items.created_at];
      now rewrite E.
  - intros o. unfold post_toggle. cbn [fst]. f_equal.
    unfold Items.update_owned. cbn [Items.rows Items.seq]. f_equal.
    rewrite map_map. apply map_ext. intros r.
    destruct (Items.id r =? i) eqn:E; cbn; now rewrite E.
  - unfold delete_item. cbn [fst]. f_equal.
    unfold Items.delete. cbn [Items.rows Items.seq]. f_equal.
    induction (Items.rows t) as [|x l IH]; cbn; [reflexivity|].
    destruct (Items.id x =? i) eqn:E; cbn; [exact IH|].
    rewrite E. cbn. now f_equal.
Qed.

(** *** Writing, then reading *)

Lemma listed_in_rows (t : Items.table) (q : option string) (x : listed) :
  In x (items_of (get_items t q)) ->
  exists r, x = view r /\ In r (Items.rows t).
Proof.
  unfold get_items. cbn [items_of]. intros Hx.
  apply in_map_iff in Hx. destruct Hx as (r & <- & Hr).
  exists r. split; [reflexivity|].
  apply (Permutation_in _ (Permutation_sym
                             (order_by_created_at_desc_perm _))) in Hr.
  destruct q as [c|]; [|exact Hr].
  destruct (truthy_string (Some c)); [|exact Hr].
  now apply filter_In in Hr.
Qed.

(** X8. After a toggle of id [i], every listing, filtered or not, shows
    the item of id [i] as owned exactly when the value sent was truthy. *)
Theorem toggled_flag_is_listed (t : Items.table) (i : Z) (o : option json)
  (q : option string) (x : listed) :
  In x (items_of (get_items (fst (post_toggle t i o)) q)) ->
  Items.id (row_of x) = i ->
  owned_of x = truthy o.
Proof.
  intros Hx Hi. apply listed_in_rows in Hx. destruct Hx as (r & -> & Hr).
  unfold post_toggle, Items.update_owned in Hr. cbn [fst Items.rows] in Hr.
  apply in_map_iff in Hr. destruct Hr as (r0 & <- & _).
  cbn [view row_of owned_of] in *.
  destruct (Items.id r0 =? i) eqn:E.
  - cbn [Items.owned]. now destruct (truthy o).
  - cbn [Items.id] in Hi. apply Z.eqb_neq in E. contradiction.
Qed.

Lemma sort_by_last {A : Type} (before : A -> A -> bool) (l : list A)
  (x : A) :
  (forall y, In y l -> before x y = true) ->
  sort_by before (l ++ [x]) = x :: sort_by before l.
Proof.
  unfold sort_by. rewrite fold_right_app. cbn [fold_right insert_by].
  induction l as [|y l IH]; intros Hl; cbn [fold_right]; [reflexivity|].
  rewrite IH by (intros z Hz; apply Hl; now right).
  cbn [insert_by]. rewrite (Hl y) by now left. reflexivity.
Qed.

Lemma filter_last {A : Type} (p : A -> bool) (l : list A) (x : A) :
  filter p (l ++ [x]) = filter p l ++ (if p x then [x] else []).
Proof.
  induction l as [|y l IH]; cbn.
  - now destruct (p x).
  - rewrite IH. now destruct (p y).
Qed.

(** X9. A creation made at a time later than that of every stored row
    puts its item at the head of the full listing and of the listing of
    its category, ahead of what was listed before, with the name sent, the
    category and collection defaulted, the blob merged, and owned shown
    exactly for the boolean true and the text true; the listing of any
    other category is as before. *)
Theorem created_item_heads_listing (now : Z) (t : Items.table)
  (req : Req.t) (p : processed) (n : string) (d : json) :
  processItemData JSON_parse req = Normal p ->
  Req.name (Req.body req) = Some n ->
  JSON_stringify (dataObj p) = Some d ->
  (forall r, In r (Items.rows t) -> Items.created_at r < now) ->
  let f := Req.body req in
  let cat := or_default (Req.category f) "Toy" in
  let own := strict_eq_string (Req.owned f) "true" || strict_eq_true (Req.owned f) in
  let r :=
    {| Items.id := Z.max (Items.seq t) (Items.max_id (Items.rows t)) + 1;
       Items.name := n; Items.category := Some cat;
       Items.collection := or_default (Req.collection f) "General";
       Items.barcode := or_null (Req.barcode f);
       Items.owned := if own then 1 else 0;
       Items.data := d; Items.created_at := now |} in
  let t1 := fst (post_items JSON_parse now t req) in
  owned_of (view r) = own
  /\ get_items t1 None = Listed (view r :: items_of (get_items t None))
  /\ get_items t1 (Some cat)
     = Listed (view r :: items_of (get_items t (Some cat)))
  /\ forall c, c <> "" -> c <> cat ->
       get_items t1 (Some c) = get_items t (Some c).
Proof.
  intros Hp Hn Hd Hnow f cat own r t1.
  destruct (processItemData_returns JSON_parse req p Hp) as [Hf _].
  assert (Hrows : Items.rows t1 = Items.rows t ++ [r]).
  { unfold t1. rewrite <- Hf in Hn.
    rewrite (post_items_accepted _ _ _ _ _ _ _ Hp Hn Hd). rewrite Hf.
    reflexivity. }
  assert (Hcat : cat <> "").
  { unfold cat. now apply or_default_nonempty. }
  assert (Hhead : forall l,
             (forall y, In y l -> In y (Items.rows t)) ->
             Items.order_by_created_at_desc (l ++ [r])
             = r :: Items.order_by_created_at_desc l).
  { intros l Hl. apply sort_by_last. intros y Hy. cbn [Items.created_at r].
    apply Z.ltb_lt. apply Hnow. now apply Hl. }
  split; [|split; [|split]].
  - unfold view, r. cbn. now destruct own.
  - unfold get_items. rewrite Hrows, Hhead by auto. reflexivity.
  - unfold get_items. cbn [truthy_string items_of].
    apply String.eqb_neq in Hcat. rewrite Hcat. cbn [negb].
    rewrite Hrows, filter_last.
    assert (Hr : Items.category_is cat r = true).
    { unfold Items.category_is, r. cbn. apply String.eqb_refl. }
    rewrite Hr, Hhead; [reflexivity|].
    intros y Hy. now apply filter_In in Hy.
  - intros c Hc Hne. unfold get_items. cbn [truthy_string].
    apply String.eqb_neq in Hc. rewrite Hc. cbn [negb].
    rewrite Hrows, filter_last.
    assert (Hr : Items.category_is c r = false).
    { unfold Items.category_is, r. cbn. apply String.eqb_neq. congruence. }
    rewrite Hr, app_nil_r. reflexivity.
Qed.

(** X10. For a payload that is an object, the properties a creation or an
    update answers with after the id are exactly the fields of the blob it
    stored. *)
Theorem answer_shows_stored_blob (req : Req.t) (f : list (string * json))
  (n : string) :
  try_parse JSON_parse (Req.data (Req.body req)) = VObject f ->
  Req.name (Req.body req) = Some n ->
  (forall now t,
     exists t1 i props r,
       post_items JSON_parse now t req = (t1, Merged i props)
       /\ Items.find t1 i = Some r
       /\ Items.data r = JObj props)
  /\ (forall t i r0,
        Items.find t i = Some r0 ->
        exists t1 props r,
          put_item JSON_parse t i req = (t1, Merged i props)
          /\ Items.find t1 i = Some r
          /\ Items.data r = JObj props).
Proof.
  intros Hf Hn.
  pose proof (processItemData_object JSON_parse req f Hf) as Hp.
  cbn zeta in Hp. split.
  - intros now t.
    rewrite (post_items_accepted _ now t _ _ n _ Hp Hn eq_refl).
    eexists _, _, _, _. split; [reflexivity|].
    split; [apply find_insert|reflexivity].
  - intros t i r0 Hr0.
    rewrite (put_item_accepted _ _ _ _ _ n _ Hp Hn eq_refl).
    eexists _, _, _. split; [reflexivity|].
    split; [apply (find_update _ _ _ _ _ _ _ _ _ Hr0)|reflexivity].
Qed.

Lemma forEach_collect_map (g : Items.row -> Items.row)
  (l : list Items.row) (m : metadata) :
  (forall r, Items.collection (g r) = Items.collection r
             /\ Items.data (g r) = Items.data r) ->
  forEach collect (map g l) m = forEach collect l m.
Proof.
  intros Hg. revert m. induction l as [|x l IH]; intros m; [reflexivity|].
  cbn [map forEach].
  assert (Hx : collect m (g x) = collect m x).
  { unfold collect. destruct (Hg x) as [-> ->]. reflexivity. }
  rewrite Hx. destruct (collect m x); cbn [bind]; [apply IH|reflexivity].
Qed.

(** X11. A toggle never changes what the metadata route answers. *)
Theorem toggle_keeps_metadata (t : Items.table) (i : Z) (o : option json) :
  get_metadata (fst (post_toggle t i o)) = get_metadata t.
Proof.
  unfold get_metadata, post_toggle, Items.update_owned. cbn [fst Items.rows].
  rewrite forEach_collect_map; [reflexivity|].
  intros r. now destruct (Items.id r =? i).
Qed.

(** X15. An accepted update writes every column but the id and the
    creation time from the request alone: whatever two rows held before,
    after the same update they agree on name, category, collection,
    barcode, owned and blob. Nothing of the old row is merged in. *)
Theorem update_overwrites_row (req : Req.t) (p : processed) (n : string)
  (t t' : Items.table) (i i' : Z) (r0 r0' : Items.row) :
  processItemData JSON_parse req = Normal p ->
  Req.name (Req.body req) = Some n ->
  Items.find t i = Some r0 ->
  Items.find t' i' = Some r0' ->
  exists r r',
    Items.find (fst (put_item JSON_parse t i req)) i = Some r
    /\ Items.find (fst (put_item JSON_parse t' i' req)) i' = Some r'
    /\ Items.id r = i /\ Items.created_at r = Items.created_at r0
    /\ Items.name r = Items.name r'
    /\ Items.category r = Items.category r'
    /\ Items.collection r = Items.collection r'
    /\ Items.barcode r = Items.barcode r'
    /\ Items.owned r = Items.owned r'
    /\ Items.data r = Items.data r'.
Proof.
  intros Hp Hn Hr Hr'.
  destruct (processItemData_returns JSON_parse req p Hp) as [Hf [d Hd]].
  rewrite <- Hf in Hn.
  rewrite !(put_item_accepted _ _ _ _ _ _ _ Hp Hn Hd). cbn [fst].
  eexists _, _.
  split; [apply (find_update _ _ _ _ _ _ _ _ _ Hr)|].
  split; [apply (find_update _ _ _ _ _ _ _ _ _ Hr')|].
  cbn. destruct (find_in _ _ _ Hr) as [_ ->]. repeat split.
Qed.

(** X16. A toggle changes one column of the row it names: the row keeps
    its id, name, category, collection, barcode, blob and creation time,
    and its owned column becomes 1 for a truthy value and 0 otherwise. *)
Theorem toggle_changes_owned_only (t : Items.table) (i : Z)
  (o : option json) (r0 : Items.row) :
  Items.find t i = Some r0 ->
  Items.find (fst (post_toggle t i o)) i
  = Some {| Items.id := Items.id r0; Items.name := Items.name r0;
            Items.category := Items.category r0;
            Items.collection := Items.collection r0;
            Items.barcode := Items.barcode r0;
            Items.owned := if truthy o then 1 else 0;
            Items.data := Items.data r0;
            Items.created_at := Items.created_at r0 |}.
Proof.
  unfold post_toggle, Items.find, Items.update_owned. cbn [fst Items.rows].
  induction (Items.rows t) as [|x l IH]; cbn; [discriminate|].
  destruct (Items.id x =? i) eqn:E; cbn; rewrite E.
  - now intros [= ->].
  - exact IH.
Qed.

(** X17. Deleting the item a creation just answered with leaves the rows
    of the table as they were before the creation; the id counter alone
    has moved on. *)
Theorem creation_undone_by_deletion (now : Z) (t t1 : Items.table)
  (req : Req.t) (i : Z) (props : list (string * json)) :
  post_items JSON_parse now t req = (t1, Merged i props) ->
  Items.rows (fst (delete_item t1 i)) = Items.rows t
  /\ Items.seq (fst (delete_item t1 i)) = i
  /\ Items.seq t < i.
Proof.
  intros H.
  destruct (post_items_answered _ _ _ _ _ _ H)
    as (r & Hrows & Hid & _ & Hseq & Hi).
  unfold delete_item, Items.delete. cbn [fst Items.rows Items.seq].
  split; [|split; [exact Hseq | lia]].
  rewrite Hrows, filter_last, Hid, Z.eqb_refl. cbn [negb].
  rewrite app_nil_r. apply filter_unchanged.
  intros x Hx. apply max_id_bound in Hx.
  apply negb_true_iff, Z.eqb_neq. lia.
Qed.

(** *** The earlier version of the file *)

Lemma cover_by_length (l : list json) :
  (if 0 <? Z.of_nat (List.length l) then nth 0 l JNull else JNull) = cover l.
Proof. destruct l; reflexivity. Qed.

(** X12. Whenever [processItemData] of the later version returns, that of
    the earlier version returns the same; the two creations then do and
    answer the same, and the two updates make the same change to the
    table. *)
Theorem earlier_version_agrees (req : Req.t) (p : processed) :
  processItemData JSON_parse req = Normal p ->
  processItemData_v1 JSON_parse req = Normal p
  /\ (forall now t,
        post_items_v1 JSON_parse now t req = post_items JSON_parse now t req)
  /\ (forall t i,
        fst (put_item_v1 JSON_parse t i req)
        = fst (put_item JSON_parse t i req)).
Proof.
  intros Hp.
  assert (H1 : processItemData_v1 JSON_parse req = Normal p).
  { rewrite <- Hp. unfold processItemData_v1, processItemData.
    destruct (try_parse JSON_parse (Req.data (Req.body req))) eqn:E;
      try (rewrite processItemData_throws in Hp by (now rewrite E);
           discriminate Hp);
      cbn [get_prop set_prop bind]; rewrite lookup_assign_same;
      cbn [bind]; rewrite first_or_null_array, cover_by_length;
      reflexivity. }
  split; [exact H1|]. split.
  - intros now t. unfold post_items_v1, post_items. now rewrite H1, Hp.
  - intros t i. unfold put_item_v1, put_item. rewrite H1, Hp. cbn [bind].
    destruct (bind_json (JSON_stringify (dataObj p))); cbn [bind];
      [|reflexivity].
    destruct (Items.run_update _ _ _ _ _ _ _ _); reflexivity.
Qed.

(** X13. A payload that is, or decodes to, a boolean, a number or a string
    has the later version refuse the creation with a TypeError and store
    nothing, while the earlier version accepts it and stores that
    primitive as the blob, with no image field. *)
Theorem earlier_version_stores_primitive (req : Req.t) (j : json)
  (n : string) :
  primitive_of (try_parse JSON_parse (Req.data (Req.body req))) = Some j ->
  Req.name (Req.body req) = Some n ->
  (forall now t,
     post_items JSON_parse now t req = (t, Uncaught TypeError))
  /\ (forall now t,
        exists t1 i props r,
          post_items_v1 JSON_parse now t req = (t1, Merged i props)
          /\ Items.find t1 i = Some r
          /\ Items.data r = j
          /\ field (Items.data r) "imageUrls" = None).
Proof.
  intros Hj Hn. split.
  - intros now t. unfold post_items.
    rewrite processItemData_throws; [reflexivity|].
    destruct (try_parse JSON_parse (Req.data (Req.body req)));
      try discriminate Hj; reflexivity.
  - intros now t. unfold post_items_v1, processItemData_v1.
    destruct (try_parse JSON_parse (Req.data (Req.body req)));
      try discriminate Hj; injection Hj as <-;
      cbn [get_prop set_prop bind fields_of dataObj]; rewrite Hn;
      cbn [bind bind_json JSON_stringify Items.run_insert];
      (eexists _, _, _, _; split; [reflexivity|];
       split; [apply find_insert|]; split; reflexivity).
Qed.

End Further.

(** *** Upload names *)

Lemma append_assoc (a b c : string) :
  ((a ++ b) ++ c = a ++ (b ++ c))%string.
Proof. induction a as [|x a IH]; cbn; [reflexivity|]. now rewrite IH. Qed.

Lemma string_of_uint_digits (d : Decimal.uint) :
  all_digits (NilEmpty.string_of_uint d) = true.
Proof. induction d; cbn; auto. Qed.

Lemma string_of_Z_digits (n : Z) :
  0 <= n -> all_digits (string_of_Z n) = true.
Proof.
  intros Hn. unfold string_of_Z. destruct n as [|p|p]; [reflexivity| |lia].
  cbn [Z.to_int NilZero.string_of_int]. unfold NilZero.string_of_uint.
  destruct (Pos.to_uint p) eqn:E; try reflexivity;
    rewrite <- E; apply string_of_uint_digits.
Qed.

Lemma string_of_Z_inj (a b : Z) :
  string_of_Z a = string_of_Z b -> a = b.
Proof.
  unfold string_of_Z. intros H.
  assert (Hok : forall n, Z.to_int n <> Decimal.Pos Decimal.Nil
                          /\ Z.to_int n <> Decimal.Neg Decimal.Nil).
  { intros [|p|p]; cbn; split; try discriminate; intros [= E];
      now apply (DecimalPos.Unsigned.to_uint_nonnil p). }
  apply (f_equal NilZero.int_of_string) in H.
  rewrite !NilZero.isi in H by apply Hok.
  injection H as H. now apply DecimalZ.to_int_inj.
Qed.

(** Two digit strings followed by something that is no digit are read
    apart in one way only. *)
Lemma digits_split (d1 d2 r1 r2 : string) :
  all_digits d1 = true -> all_digits d2 = true ->
  no_digit_ahead r1 = true -> no_digit_ahead r2 = true ->
  (d1 ++ r1 = d2 ++ r2)%string -> d1 = d2 /\ r1 = r2.
Proof.
  revert d2. induction d1 as [|c d1 IH]; intros [|c' d2] H1 H2 Hr1 Hr2 E;
    cbn in *.
  - now split.
  - subst r1. cbn in Hr1. destruct (Json_text.digit c'); discriminate.
  - subst r2. cbn in Hr2. destruct (Json_text.digit c); discriminate.
  - injection E as -> E.
    destruct (Json_text.digit c'); [|discriminate].
    destruct (IH d2 H1 H2 Hr1 Hr2 E) as [-> ->]. now split.
Qed.

(** X14. Two stored files get the same name exactly when they were stored
    in the same millisecond, with the same draw, under names of the same
    extension: a different millisecond or a different draw gives a
    different name, and nothing else does. *)
Theorem upload_names_coincide (extname : string -> string)
  (now draw now' draw' : Z) (a b : string) :
  (forall s, no_digit_ahead (extname s) = true) ->
  0 <= now -> 0 <= draw -> 0 <= now' -> 0 <= draw' ->
  filename extname now draw a = filename extname now' draw' b
  <-> now = now' /\ draw = draw' /\ extname a = extname b.
Proof.
  intros Hext Hn Hd Hn' Hd'. split.
  - unfold filename, uniqueSuffix. rewrite !append_assoc. intros E.
    apply digits_split in E; try (now apply string_of_Z_digits);
      try reflexivity.
    destruct E as [E1 E2]. apply string_of_Z_inj in E1.
    cbn [append] in E2. injection E2 as E2.
    apply digits_split in E2; try (now apply string_of_Z_digits);
      try apply Hext.
    destruct E2 as [E2 E3]. apply string_of_Z_inj in E2. auto.
  - intros (-> & -> & E). unfold filename. now rewrite E.
Qed.

(** *** The further properties on the sample requests *)

(** The robot gets the id 1, and whatever is created after it was deleted
    gets a larger one. *)
Lemma created_ids_increase_robot :
  Items.rows (fst (post_items Json_text.parse 100 Items.empty create_robot))
  = Items.rows Items.empty ++ [robot_row]
  /\ (forall x, In x (Items.rows Items.empty) -> Items.id x < 1)
  /\ forall trace now' req' r',
       Items.rows
         (fst (post_items Json_text.parse now'
                 (run Json_text.parse trace
                    (fst (post_items Json_text.parse 100 Items.empty
                            create_robot)))
                 req'))
       = Items.rows
           (run Json_text.parse trace
              (fst (post_items Json_text.parse 100 Items.empty create_robot)))
         ++ [r'] ->
       1 < Items.id r'.
Proof.
  split; [reflexivity|].
  exact (created_ids_increase Json_text.parse 100 Items.empty create_robot
           robot_row eq_refl).
Defined.

(** A creation whose blob has an id of its own answers with that id, not
    with the id of the row it added. *)
Example blob_id_is_answered :
  answered_id (snd (post_items Json_text.parse 130 shelf claims_id))
  = Some (inr (JNum seven_number))
  /\ map Items.id
       (Items.rows (fst (post_items Json_text.parse 130 shelf claims_id)))
     = [1; 2].
Proof. split; reflexivity. Qed.

Example id_not_given_again :
  snd (post_items Json_text.parse 130
         (run Json_text.parse robot_then_gone shelf) create_robot)
  = Merged 2 [("imageUrls", JArr [path_for a_png; path_for b_png]);
              ("imageUrl", path_for a_png)]
  /\ Items.find (run Json_text.parse robot_then_gone shelf) 1 = None.
Proof. split; reflexivity. Qed.

Lemma reachable_ids_distinct_shelf :
  reachable Json_text.parse shelf
  /\ NoDup (map Items.id (Items.rows shelf))
  /\ forall r, In r (Items.rows shelf) -> 0 < Items.id r <= Items.seq shelf.
Proof.
  split; [exact shelf_reachable|].
  exact (reachable_ids_distinct Json_text.parse shelf shelf_reachable).
Defined.

Lemma reachable_owned_is_flag_shelf :
  reachable Json_text.parse shelf
  /\ forall r, In r (Items.rows shelf) ->
       Items.owned r = 0 \/ Items.owned r = 1.
Proof.
  split; [exact shelf_reachable|].
  exact (reachable_owned_is_flag Json_text.parse shelf shelf_reachable).
Defined.

(** Writes to the id 2 leave the robot, of id 1, alone. *)
Lemma writes_leave_robot :
  1 <> 2
  /\ (forall req, Items.find (fst (put_item Json_text.parse shelf 2 req)) 1
                  = Items.find shelf 1)
  /\ (forall o, Items.find (fst (post_toggle shelf 2 o)) 1 = Items.find shelf 1)
  /\ Items.find (fst (delete_item shelf 2)) 1 = Items.find shelf 1
  /\ (forall now req t1 props,
        post_items Json_text.parse now shelf req = (t1, Merged 2 props) ->
        Items.find t1 1 = Items.find shelf 1).
Proof.
  split; [discriminate|].
  exact (writes_leave_other_rows Json_text.parse shelf 2 1
           ltac:(discriminate)).
Defined.

(** The robot is listed as owned after the text false was sent to its
    toggle. *)
Lemma toggled_flag_is_listed_robot :
  In (view robot_owned)
    (items_of (get_items (fst (post_toggle shelf 1 (Some (JStr "false"))))
                 None))
  /\ Items.id (row_of (view robot_owned)) = 1
  /\ owned_of (view robot_owned) = true.
Proof.
  split; [left; reflexivity|]. split; [reflexivity|].
  exact (toggled_flag_is_listed shelf 1 (Some (JStr "false")) None
           (view robot_owned) (or_introl eq_refl) eq_refl).
Defined.

(** A game put on the shelf at second 200 is listed ahead of the robot,
    and alone under its category. *)
Lemma created_item_heads_listing_game :
  processItemData Json_text.parse (shelved "Y" "Shelf A")
  = Normal {| fields_of := Req.body (shelved "Y" "Shelf A");
              dataObj := VObject [("imageUrls", JArr []);
                                  ("imageUrl", JNull)] |}
  /\ (forall r, In r (Items.rows shelf) -> Items.created_at r < 200)
  /\ owned_of (view game_row) = true
  /\ get_items
       (fst (post_items Json_text.parse 200 shelf (shelved "Y" "Shelf A")))
       None
     = Listed [view game_row; view robot_row]
  /\ get_items
       (fst (post_items Json_text.parse 200 shelf (shelved "Y" "Shelf A")))
       (Some "Game")
     = Listed [view game_row]
  /\ forall c, c <> "" -> c <> "Game" ->
       get_items
         (fst (post_items Json_text.parse 200 shelf (shelved "Y" "Shelf A")))
         (Some c)
       = get_items shelf (Some c).
Proof.
  split; [reflexivity|].
  assert (Hclock : forall r, In r (Items.rows shelf) ->
                             Items.created_at r < 200).
  { intros r [<- | []]. reflexivity. }
  split; [exact Hclock|].
  exact (created_item_heads_listing Json_text.parse 200 shelf
           (shelved "Y" "Shelf A")
           {| fields_of := Req.body (shelved "Y" "Shelf A");
              dataObj := VObject [("imageUrls", JArr []);
                                  ("imageUrl", JNull)] |}
           "Y" (JObj [("imageUrls", JArr []); ("imageUrl", JNull)])
           eq_refl eq_refl eq_refl Hclock).
Defined.

(** The creation of the robot answers with the blob it stored. *)
Lemma answer_shows_stored_blob_robot :
  try_parse Json_text.parse (Req.data (Req.body create_robot)) = VObject []
  /\ Req.name (Req.body create_robot) = Some "Robot"
  /\ (forall now t,
        exists t1 i props r,
          post_items Json_text.parse now t create_robot
          = (t1, Merged i props)
          /\ Items.find t1 i = Some r
          /\ Items.data r = JObj props)
  /\ (forall t i r0,
        Items.find t i = Some r0 ->
        exists t1 props r,
          put_item Json_text.parse t i create_robot = (t1, Merged i props)
          /\ Items.find t1 i = Some r
          /\ Items.data r = JObj props).
Proof.
  split; [reflexivity|]. split; [reflexivity|].
  exact (answer_shows_stored_blob Json_text.parse create_robot [] "Robot"
           eq_refl eq_refl).
Defined.

(** The two versions agree on the creation of the robot. *)
Lemma earlier_version_agrees_robot :
  processItemData Json_text.parse create_robot
  = Normal {| fields_of := Req.body create_robot;
              dataObj :=
                VObject [("imageUrls", JArr [path_for a_png; path_for b_png]);
                         ("imageUrl", path_for a_png)] |}
  /\ processItemData_v1 Json_text.parse create_robot
     = Normal {| fields_of := Req.body create_robot;
                 dataObj :=
                   VObject [("imageUrls",
                             JArr [path_for a_png; path_for b_png]);
                            ("imageUrl", path_for a_png)] |}
  /\ (forall now t,
        post_items_v1 Json_text.parse now t create_robot
        = post_items Json_text.parse now t create_robot)
  /\ (forall t i,
        fst (put_item_v1 Json_text.parse t i create_robot)
        = fst (put_item Json_text.parse t i create_robot)).
Proof.
  split; [reflexivity|].
  exact (earlier_version_agrees Json_text.parse create_robot _ eq_refl).
Defined.

(** The blob 7 is refused by the later version and stored by the earlier
    one. *)
Lemma earlier_version_stores_seven :
  primitive_of (try_parse Json_text.parse (Req.data (Req.body seven)))
  = Some (JNum seven_number)
  /\ Req.name (Req.body seven) = Some "Seven"
  /\ (forall now t,
        post_items Json_text.parse now t seven = (t, Uncaught TypeError))
  /\ (forall now t,
        exists t1 i props r,
          post_items_v1 Json_text.parse now t seven = (t1, Merged i props)
          /\ Items.find t1 i = Some r
          /\ Items.data r = JNum seven_number
          /\ field (Items.data r) "imageUrls" = None).
Proof.
  split; [reflexivity|]. split; [reflexivity|].
  exact (earlier_version_stores_primitive Json_text.parse seven
           (JNum seven_number)
           "Seven" eq_refl eq_refl).
Defined.

(** The earlier update sends the fields of the request back as they came,
    the text false included, next to the stored blob. *)
Example earlier_update_echoes_fields :
  snd (put_item_v1 Json_text.parse shelf 1 disown)
  = Merged 1 [("name", JStr "Robot"); ("owned", JStr "false");
              ("data", JObj [("imageUrls", JArr []); ("imageUrl", JNull)])].
Proof. reflexivity. Qed.

Lemma suffix_from_last_dot_plain (s : string) :
  no_digit_ahead (suffix_from_last_dot s) = true.
Proof.
  induction s as [|c s IH]; cbn; [reflexivity|].
  destruct (suffix_from_last_dot s) eqn:E; [|exact IH].
  destruct (Ascii.eqb c ".") eqn:Ec; [|reflexivity].
  apply Ascii.eqb_eq in Ec. now subst c.
Qed.

(** Two pictures stored a millisecond apart get different names. *)
Lemma upload_names_coincide_pictures :
  (forall s, no_digit_ahead (suffix_from_last_dot s) = true)
  /\ filename suffix_from_last_dot 1700000000001 11 "a.png"
     = "1700000000001-11.png"
  /\ (filename suffix_from_last_dot 1700000000001 11 "a.png"
      = filename suffix_from_last_dot 1700000000002 11 "b.png"
      <-> 1700000000001 = 1700000000002 /\ 11 = 11
          /\ suffix_from_last_dot "a.png" = suffix_from_last_dot "b.png").
Proof.
  split; [exact suffix_from_last_dot_plain|]. split; [reflexivity|].
  exact (upload_names_coincide suffix_from_last_dot 1700000000001 11
           1700000000002 11 "a.png" "b.png" suffix_from_last_dot_plain
           ltac:(lia) ltac:(lia) ltac:(lia) ltac:(lia)).
Defined.

(** Two robots of different tables come out of the same update alike. *)
Lemma update_overwrites_robot :
  processItemData Json_text.parse rebrand
  = Normal {| fields_of := Req.body rebrand;
              dataObj := VObject [("brand", JStr "Acme");
                                  ("imageUrls", JArr []);
                                  ("imageUrl", JNull)] |}
  /\ Items.find shelf 1 = Some robot_row
  /\ Items.find (fst (post_toggle shelf 1 (Some (JStr "false")))) 1
     = Some robot_owned
  /\ exists r r',
      Items.find (fst (put_item Json_text.parse shelf 1 rebrand)) 1 = Some r
      /\ Items.find
           (fst (put_item Json_text.parse
                   (fst (post_toggle shelf 1 (Some (JStr "false")))) 1
                   rebrand)) 1
         = Some r'
      /\ Items.id r = 1 /\ Items.created_at r = Items.created_at robot_row
      /\ Items.name r = Items.name r'
      /\ Items.category r = Items.category r'
      /\ Items.collection r = Items.collection r'
      /\ Items.barcode r = Items.barcode r'
      /\ Items.owned r = Items.owned r'
      /\ Items.data r = Items.data r'.
Proof.
  split; [reflexivity|]. split; [reflexivity|]. split; [reflexivity|].
  exact (update_overwrites_row Json_text.parse rebrand _ "Robot" shelf
           (fst (post_toggle shelf 1 (Some (JStr "false")))) 1 1
           robot_row robot_owned eq_refl eq_refl eq_refl eq_refl).
Defined.

(** The toggle of the robot, with the text false. *)
Lemma toggle_changes_owned_only_robot :
  Items.find shelf 1 = Some robot_row
  /\ Items.find (fst (post_toggle shelf 1 (Some (JStr "false")))) 1
     = Some robot_owned.
Proof.
  split; [reflexivity|].
  exact (toggle_changes_owned_only shelf 1 (Some (JStr "false")) robot_row
           eq_refl).
Defined.

(** Creating the robot and deleting it leaves the empty table, with the
    counter at 1. *)
Lemma creation_undone_robot :
  post_items Json_text.parse 100 Items.empty create_robot
  = (shelf, Merged 1 [("imageUrls", JArr [path_for a_png; path_for b_png]);
                      ("imageUrl", path_for a_png)])
  /\ Items.rows (fst (delete_item shelf 1)) = []
  /\ Items.seq (fst (delete_item shelf 1)) = 1
  /\ Items.seq Items.empty < 1.
Proof.
  split; [reflexivity|].
  exact (creation_undone_by_deletion Json_text.parse 100 Items.empty shelf
           create_robot 1 _ eq_refl).
Defined.
